(** * keylight_exporter: the scrape handler, verified against its specification

    A shallow embedding of [handler.go] (package [keylightexporter]):
    the address normaliser [buildAddr] / [buildHostPort], the scrape
    translator [scrapeDevice] with [boolFloat] and [panicf], the request
    handler [ServeHTTP], the registrations of [NewHandler] and the default
    fetcher [httpFetcher.Fetch].

    Go strings are byte sequences, so they are [string]s (lists of 8-bit
    [ascii]).  The functions of the Go standard library the handler calls
    ([strings.Contains], [net.SplitHostPort], [net.JoinHostPort],
    [url.Parse], [URL.String]) are transcribed from the Go 1.14
    sources, the language version named by [go.mod]. *)

From Stdlib Require Import ZArith NArith Ascii String DecimalString DecimalNat.
From Stdlib Require Import Floats.SpecFloat.
From stdpp Require Import base option list strings gmap fin_maps.

Local Open Scope N_scope.

(* [simpl] is to compute the append of strings. *)
#[local] Arguments String.append !_ _ / : simpl nomatch.

(** ** Values with an error: Go's [(T, error)] results *)

Inductive error : Type :=
| errorString (msg : string)              (* errors.New(msg) *)
| errorf_q (pre arg post : string)        (* fmt.Errorf(pre + "%q" + post, arg) *)
| EscapeError (s : string)                (* url.EscapeError *)
| InvalidHostError (s : string)           (* url.InvalidHostError *)
| AddrError (why addr : string)           (* *net.AddrError *)
| url_Error (op url : string) (err : error). (* *url.Error *)

Inductive result (A : Type) : Type :=
| Ok (a : A)
| Err (e : error).
Arguments Ok {A} a.
Arguments Err {A} e.

#[global] Instance result_ret : MRet result := fun A a => Ok a.
#[global] Instance result_bind : MBind result := fun A B f m =>
  match m with
  | Ok a => f a
  | Err e => Err e
  end.

(** ** Bytes *)

Definition byte_in (lo hi c : ascii) : bool :=
  (N_of_ascii lo <=? N_of_ascii c) && (N_of_ascii c <=? N_of_ascii hi).

Definition byte_of (cs : list ascii) (c : ascii) : bool :=
  existsb (Ascii.eqb c) cs.

(** [s[:n]] and [s[n:]] *)
Fixpoint slice_to (n : nat) (s : string) : string :=
  match n, s with
  | S n', String c s' => String c (slice_to n' s')
  | _, _ => EmptyString
  end.

Fixpoint slice_from (n : nat) (s : string) : string :=
  match n, s with
  | S n', String _ s' => slice_from n' s'
  | _, _ => s
  end.

Fixpoint all_bytes (p : ascii -> bool) (s : string) : bool :=
  match s with
  | EmptyString => true
  | String c s' => p c && all_bytes p s'
  end.

(** ** Package [strings] *)

Module strings.

Definition HasPrefix (s pre : string) : bool := String.prefix pre s.

(** The offset of the first occurrence of [sub], Go's [-1] being [None]. *)
Fixpoint Index (s sub : string) : option nat :=
  if String.prefix sub s then Some 0%nat
  else match s with
       | EmptyString => None
       | String _ s' => S <$> Index s' sub
       end.

Fixpoint LastIndex (s sub : string) : option nat :=
  match s with
  | EmptyString => if String.prefix sub s then Some 0%nat else None
  | String _ s' =>
      match LastIndex s' sub with
      | Some i => Some (S i)
      | None => if String.prefix sub s then Some 0%nat else None
      end
  end.

Definition Contains (s sub : string) : bool :=
  bool_decide (is_Some (Index s sub)).

Definition HasSuffix (s suf : string) : bool :=
  (String.length suf <=? String.length s)%nat
  && String.eqb (slice_from (String.length s - String.length suf) s) suf.

(** [Count] for a separator of one byte. *)
Fixpoint CountByte (s : string) (c : ascii) : nat :=
  match s with
  | EmptyString => 0
  | String c' s' => (if Ascii.eqb c' c then 1 else 0) + CountByte s' c
  end.

Definition lower (c : ascii) : ascii :=
  if byte_in "A" "Z" c then ascii_of_N (N_of_ascii c + 32) else c.

(** [ToLower] on ASCII text; [url.Parse] applies it to a scheme, which
    [getscheme] makes ASCII letters, digits and [+-.] only. *)
Fixpoint ToLower (s : string) : string :=
  match s with
  | EmptyString => EmptyString
  | String c s' => String (lower c) (ToLower s')
  end.

End strings.

(** ** Package [net]: host and port *)

Module net.

Definition missingPort : string := "missing port in address".
Definition tooManyColons : string := "too many colons in address".

Definition SplitHostPort (hostport : string) : result (string * string) :=
  let addrErr (addr why : string) : result (string * string) :=
    Err (AddrError why addr) in
  (* The port starts after the last colon. *)
  match strings.LastIndex hostport ":" with
  | None => addrErr hostport missingPort
  | Some i =>
      '(host, j, k) ←
        (if strings.HasPrefix hostport "["
         then
           (* Expect the first ']' just before the last ':'. *)
           match strings.Index hostport "]" with
           | None => Err (AddrError "missing ']' in address" hostport)
           | Some e =>
               if bool_decide (e + 1 = String.length hostport)%nat
               then Err (AddrError missingPort hostport)
               else if bool_decide (e + 1 = i)%nat
               then Ok (slice_to (e - 1) (slice_from 1 hostport), 1%nat, (e + 1)%nat)
               else if strings.HasPrefix (slice_from (e + 1) hostport) ":"
               then Err (AddrError tooManyColons hostport)
               else Err (AddrError missingPort hostport)
           end
         else
           let host := slice_to i hostport in
           if strings.Contains host ":"
           then Err (AddrError tooManyColons hostport)
           else Ok (host, 0%nat, 0%nat));
      if strings.Contains (slice_from j hostport) "["
      then addrErr hostport "unexpected '[' in address"
      else if strings.Contains (slice_from k hostport) "]"
      then addrErr hostport "unexpected ']' in address"
      else Ok (host, slice_from (i + 1) hostport)
  end.

Definition JoinHostPort (host port : string) : string :=
  (* A host with colons is taken for a literal IPv6 address. *)
  if strings.Contains host ":"
  then "[" +:+ host +:+ "]:" +:+ port
  else host +:+ ":" +:+ port.

End net.

(** ** Package [net/url] *)

Module url.

Inductive encoding : Type :=
| encodePath
| encodePathSegment
| encodeHost
| encodeZone
| encodeUserPassword
| encodeQueryComponent
| encodeFragment.

#[global] Instance encoding_eq_dec : EqDecision encoding.
Proof. solve_decision. Defined.

Record Userinfo : Type := mkUserinfo {
  username : string;
  password : string;
  passwordSet : bool
}.

Record URL : Type := mkURL {
  Scheme : string;
  Opaque : string;            (* encoded opaque data *)
  User : option Userinfo;     (* username and password information *)
  Host : string;              (* host or host:port *)
  Path : string;              (* path (relative paths may omit leading slash) *)
  RawPath : string;           (* encoded path hint *)
  ForceQuery : bool;          (* append a query ('?') even if RawQuery is empty *)
  RawQuery : string;          (* encoded query values, without '?' *)
  Fragment : string           (* fragment for references, without '#' *)
}.

Definition set_Path (u : URL) (p : string) : URL :=
  mkURL (Scheme u) (Opaque u) (User u) (Host u) p (RawPath u)
        (ForceQuery u) (RawQuery u) (Fragment u).

Definition ishex (c : ascii) : bool :=
  byte_in "0" "9" c || byte_in "a" "f" c || byte_in "A" "F" c.

Definition unhex (c : ascii) : N :=
  if byte_in "0" "9" c then N_of_ascii c - N_of_ascii "0"
  else if byte_in "a" "f" c then N_of_ascii c - N_of_ascii "a" + 10
  else if byte_in "A" "F" c then N_of_ascii c - N_of_ascii "A" + 10
  else 0.

(** [unhex(a)<<4 | unhex(b)] *)
Definition unhex2 (a b : ascii) : ascii :=
  ascii_of_N (N.lor (N.shiftl (unhex a) 4) (unhex b)).

(** Reports whether the byte [c] is to be escaped when it appears in the
    part of a URL that [mode] names. *)
Definition shouldEscape (c : ascii) (mode : encoding) : bool :=
  (* §2.3 Unreserved characters (alphanum) *)
  if byte_in "a" "z" c || byte_in "A" "Z" c || byte_in "0" "9" c then false
  else if (bool_decide (mode = encodeHost) || bool_decide (mode = encodeZone))
          && byte_of ["!"; "$"; "&"; "'"; "("; ")"; "*"; "+"; ","; ";"; "=";
                      ":"; "["; "]"; "<"; ">"; "034"]%char c
  then false
  else if byte_of ["-"; "_"; "."; "~"]%char c then false
  else if byte_of ["$"; "&"; "+"; ","; "/"; ":"; ";"; "="; "?"; "@"]%char c
  then
    match mode with
    | encodePath => Ascii.eqb c "?"
    | encodePathSegment => byte_of ["/"; ";"; ","; "?"]%char c
    | encodeUserPassword => byte_of ["@"; "/"; "?"; ":"]%char c
    | encodeQueryComponent => true
    | encodeFragment => false
    | encodeHost | encodeZone => true
    end
  else if bool_decide (mode = encodeFragment)
          && byte_of ["!"; "("; ")"; "*"]%char c
  then false
  else true. (* Everything else must be escaped. *)

Definition upperhex : string := "0123456789ABCDEF".

Definition hexdigit (n : N) : ascii :=
  default "0"%char (String.get (N.to_nat n) upperhex).

Fixpoint escape (s : string) (mode : encoding) : string :=
  match s with
  | EmptyString => EmptyString
  | String c s' =>
      if Ascii.eqb c " " && bool_decide (mode = encodeQueryComponent)
      then String "+" (escape s' mode)
      else if shouldEscape c mode
      then String "%" (String (hexdigit (N.shiftr (N_of_ascii c) 4))
                         (String (hexdigit (N.land (N_of_ascii c) 15))
                            (escape s' mode)))
      else String c (escape s' mode)
  end.

(** [unescape] undoes [escape]; the first malformed or forbidden byte, in
    the order of the text, is the error. *)
Fixpoint unescape (s : string) (mode : encoding) : result string :=
  match s with
  | EmptyString => Ok EmptyString
  | String c s1 =>
      if Ascii.eqb c "%" then
        match s1 with
        | String a (String b s3) =>
            if negb (ishex a && ishex b) then Err (EscapeError (slice_to 3 s))
            else if bool_decide (mode = encodeHost) && (unhex a <? 8)
                    && negb (String.eqb (slice_to 3 s) "%25")
            then Err (EscapeError (slice_to 3 s))
            else if bool_decide (mode = encodeZone)
                    && negb (String.eqb (slice_to 3 s) "%25")
                    && negb (Ascii.eqb (unhex2 a b) " ")
                    && shouldEscape (unhex2 a b) encodeHost
            then Err (EscapeError (slice_to 3 s))
            else t ← unescape s3 mode; Ok (String (unhex2 a b) t)
        | _ => Err (EscapeError (slice_to 3 s))
        end
      else if Ascii.eqb c "+" then
        t ← unescape s1 mode;
        Ok (String (if bool_decide (mode = encodeQueryComponent)
                    then " "%char else "+"%char) t)
      else if (bool_decide (mode = encodeHost) || bool_decide (mode = encodeZone))
              && (N_of_ascii c <? 128) && shouldEscape c encodeHost
      then Err (InvalidHostError (String c EmptyString))
      else t ← unescape s1 mode; Ok (String c t)
  end.

(** [split] cuts [s] at the first [sep]; with [cutc] the separator is
    dropped. *)
Definition split (s sep : string) (cutc : bool) : string * string :=
  match strings.Index s sep with
  | None => (s, "")
  | Some i =>
      if cutc then (slice_to i s, slice_from (i + String.length sep) s)
      else (slice_to i s, slice_from i s)
  end.

Inductive scheme_scan : Type :=
| scan_done (r : result (string * string))
| scan_next.

Definition getscheme_at (rawurl : string) (i : nat) (c : ascii) : scheme_scan :=
  if byte_in "a" "z" c || byte_in "A" "Z" c then scan_next
  else if byte_in "0" "9" c || byte_of ["+"; "-"; "."]%char c then
    if bool_decide (i = 0%nat) then scan_done (Ok ("", rawurl)) else scan_next
  else if Ascii.eqb c ":" then
    if bool_decide (i = 0%nat)
    then scan_done (Err (errorString "missing protocol scheme"))
    else scan_done (Ok (slice_to i rawurl, slice_from (i + 1) rawurl))
  else
    (* an invalid character, so there is no valid scheme *)
    scan_done (Ok ("", rawurl)).

(** The loop of [getscheme], from offset [i], over the bytes left. *)
Fixpoint getscheme_loop (rawurl : string) (i : nat) (rest : string)
  : result (string * string) :=
  match rest with
  | EmptyString => Ok ("", rawurl)
  | String c rest' =>
      match getscheme_at rawurl i c with
      | scan_done r => r
      | scan_next => getscheme_loop rawurl (S i) rest'
      end
  end.

Definition getscheme (rawurl : string) : result (string * string) :=
  getscheme_loop rawurl 0 rawurl.

(** An ASCII control byte: [b < ' ' || b == 0x7f]. *)
Definition is_ctl (b : ascii) : bool := (N_of_ascii b <? 32) || Ascii.eqb b "127".

Definition stringContainsCTLByte (s : string) : bool :=
  negb (all_bytes (fun b => negb (is_ctl b)) s).

(** [validOptionalPort] reports whether [port] is either an empty string
    or matches [/^:\d*$/]. *)
Definition validOptionalPort (port : string) : bool :=
  match port with
  | EmptyString => true
  | String c digits =>
      Ascii.eqb c ":" && all_bytes (byte_in "0" "9") digits
  end.

Definition validUserinfo (s : string) : bool :=
  all_bytes (fun r =>
    byte_in "A" "Z" r || byte_in "a" "z" r || byte_in "0" "9" r
    || byte_of ["-"; "."; "_"; ":"; "~"; "!"; "$"; "&"; "'"; "("; ")"; "*";
                "+"; ","; ";"; "="; "%"; "@"]%char r) s.

(** [parseHost] parses [host] as an authority without user information:
    the form [host] or [host:port].  This release takes any text between
    brackets as an IP literal; later releases refuse one that is not an
    IPv6 address. *)
Definition parseHost (host : string) : result string :=
  let plain := unescape host encodeHost in
  if strings.HasPrefix host "[" then
    (* Parse an IP-Literal in RFC 3986 and RFC 6874. *)
    match strings.LastIndex host "]" with
    | None => Err (errorString "missing ']' in host")
    | Some i =>
        let colonPort := slice_from (i + 1) host in
        if negb (validOptionalPort colonPort)
        then Err (errorf_q "invalid port " colonPort " after host")
        else
          (* %25 introduces the zone identifier. *)
          match strings.Index (slice_to i host) "%25" with
          | Some zone =>
              host1 ← unescape (slice_to zone host) encodeHost;
              host2 ← unescape (slice_to (i - zone) (slice_from zone host)) encodeZone;
              host3 ← unescape (slice_from i host) encodeHost;
              Ok (host1 +:+ host2 +:+ host3)
          | None => plain
          end
    end
  else
    match strings.LastIndex host ":" with
    | Some i =>
        let colonPort := slice_from i host in
        if negb (validOptionalPort colonPort)
        then Err (errorf_q "invalid port " colonPort " after host")
        else plain
    | None => plain
    end.

Definition parseAuthority (authority : string)
  : result (option Userinfo * string) :=
  match strings.LastIndex authority "@" with
  | None => host ← parseHost authority; Ok (None, host)
  | Some i =>
      host ← parseHost (slice_from (i + 1) authority);
      let userinfo := slice_to i authority in
      if negb (validUserinfo userinfo)
      then Err (errorString "net/url: invalid userinfo")
      else if negb (strings.Contains userinfo ":") then
        userinfo ← unescape userinfo encodeUserPassword;
        Ok (Some (mkUserinfo userinfo "" false), host)
      else
        let '(username, password) := split userinfo ":" true in
        username ← unescape username encodeUserPassword;
        password ← unescape password encodeUserPassword;
        Ok (Some (mkUserinfo username password true), host)
  end.

(** [setPath]: the pair of [Path] and [RawPath] for the encoded path [p];
    [RawPath] is kept only when it differs from the default encoding. *)
Definition setPath (p : string) : result (string * string) :=
  path ← unescape p encodePath;
  if String.eqb p (escape path encodePath)
  then Ok (path, "")
  else Ok (path, p).

Definition parse (rawurl : string) (viaRequest : bool) : result URL :=
  if stringContainsCTLByte rawurl
  then Err (errorString "net/url: invalid control character in URL")
  else if String.eqb rawurl "" && viaRequest
  then Err (errorString "empty url")
  else if String.eqb rawurl "*"
  then Ok (mkURL "" "" None "" "*" "" false "" "")
  else
    (* Split off possible leading "http:", "mailto:", etc. *)
    '(scheme, rest) ← getscheme rawurl;
    let scheme := strings.ToLower scheme in
    let '(rest, forceQuery, rawQuery) :=
      if strings.HasSuffix rest "?"
         && bool_decide (strings.CountByte rest "?" = 1%nat)
      then (slice_to (String.length rest - 1) rest, true, "")
      else let '(rest, q) := split rest "?" true in (rest, false, q) in
    if negb (strings.HasPrefix rest "/") && negb (String.eqb scheme "")
    then
      (* We consider rootless paths per RFC 3986 as opaque. *)
      Ok (mkURL scheme rest None "" "" "" forceQuery rawQuery "")
    else if negb (strings.HasPrefix rest "/") && viaRequest
    then Err (errorString "invalid URI for request")
    else if negb (strings.HasPrefix rest "/")
            && match strings.Index rest ":", strings.Index rest "/" with
               | Some colon, None => true
               | Some colon, Some slash => (colon <? slash)%nat
               | None, _ => false
               end
    then
      (* First path segment has colon. Not allowed in relative URL. *)
      Err (errorString "first path segment in URL cannot contain colon")
    else
      '(user, host, rest) ←
        (if (negb (String.eqb scheme "")
             || negb viaRequest && negb (strings.HasPrefix rest "///"))
            && strings.HasPrefix rest "//"
         then
           let '(authority, rest) := split (slice_from 2 rest) "/" false in
           '(user, host) ← parseAuthority authority;
           Ok (user, host, rest)
         else Ok (None, "", rest));
      '(path, rawPath) ← setPath rest;
      Ok (mkURL scheme "" user host path rawPath forceQuery rawQuery "").

(** [Parse] parses [rawurl] into a URL structure. *)
Definition Parse (rawurl : string) : result URL :=
  (* Cut off #frag *)
  let '(u, frag) := split rawurl "#" true in
  match parse u false with
  | Err err => Err (url_Error "parse" u err)
  | Ok url =>
      if String.eqb frag "" then Ok url
      else
        match unescape frag encodeFragment with
        | Err err => Err (url_Error "parse" rawurl err)
        | Ok fragment =>
            Ok (mkURL (Scheme url) (Opaque url) (User url) (Host url)
                      (Path url) (RawPath url) (ForceQuery url)
                      (RawQuery url) fragment)
        end
  end.

Definition Userinfo_String (u : option Userinfo) : string :=
  match u with
  | None => ""
  | Some u =>
      let s := escape (username u) encodeUserPassword in
      if passwordSet u
      then s +:+ ":" +:+ escape (password u) encodeUserPassword
      else s
  end.

(** [validEncodedPath] reports whether [s] is a valid encoded path. It
    must not contain any bytes that require escaping during path
    encoding. *)
Definition validEncodedPath (s : string) : bool :=
  all_bytes (fun c =>
    byte_of ["!"; "$"; "&"; "'"; "("; ")"; "*"; "+"; ","; ";"; "="; ":"; "@";
             "["; "]"; "%"]%char c
    || negb (shouldEscape c encodePath)) s.

Definition EscapedPath (u : URL) : string :=
  let fallback :=
    if String.eqb (Path u) "*" then "*" (* don't escape (Issue 11202) *)
    else escape (Path u) encodePath in
  if negb (String.eqb (RawPath u) "") && validEncodedPath (RawPath u) then
    match unescape (RawPath u) encodePath with
    | Ok p => if String.eqb p (Path u) then RawPath u else fallback
    | Err _ => fallback
    end
  else fallback.

(** [String] reassembles the URL into a valid URL string. *)
Definition String (u : URL) : string :=
  let buf := "" in
  let buf :=
    if negb (String.eqb (Scheme u) "") then buf +:+ Scheme u +:+ ":" else buf in
  let buf :=
    if negb (String.eqb (Opaque u) "") then buf +:+ Opaque u
    else
      let buf :=
        if negb (String.eqb (Scheme u) "") || negb (String.eqb (Host u) "")
           || bool_decide (is_Some (User u))
        then
          let buf :=
            if negb (String.eqb (Host u) "") || negb (String.eqb (Path u) "")
               || bool_decide (is_Some (User u))
            then buf +:+ "//" else buf in
          let buf :=
            match User u with
            | Some _ => buf +:+ Userinfo_String (User u) +:+ "@"
            | None => buf
            end in
          if negb (String.eqb (Host u) "")
          then buf +:+ escape (Host u) encodeHost else buf
        else buf in
      let path := EscapedPath u in
      let buf :=
        if negb (String.eqb path "") && negb (strings.HasPrefix path "/")
           && negb (String.eqb (Host u) "")
        then buf +:+ "/" else buf in
      let buf :=
        if String.eqb buf "" then
          (* A first segment with a colon must be preceded by a
             dot-segment to make a relative-path reference. *)
          match strings.Index path ":" with
          | Some i =>
              if negb (strings.Contains (slice_to i path) "/")
              then buf +:+ "./" else buf
          | None => buf
          end
        else buf in
      buf +:+ path in
  let buf :=
    if ForceQuery u || negb (String.eqb (RawQuery u) "")
    then buf +:+ "?" +:+ RawQuery u else buf in
  if negb (String.eqb (Fragment u) "")
  then buf +:+ "#" +:+ escape (Fragment u) encodeFragment
  else buf.

End url.

(** ** The address normaliser of [handler.go] *)

(** [keylightPort] is the default HTTP port used to communicate with Key
    Light devices. *)
Definition keylightPort : string := "9123".

(** [buildAddr] and [buildHostPort] call each other: [buildAddr_fuel] bounds
    the depth of the calls by [fuel], [None] being a run that spent it, and
    [buildHostPort_fuel] takes the call back into [buildAddr] as its
    argument [buildAddr].

    [buildHostPort] builds a well-formed HTTP endpoint from a string with no
    URL scheme. *)
Definition buildHostPort_fuel (buildAddr : string -> option (result string))
    (s : string) : option (result string) :=
  let '(host, port) :=
    match net.SplitHostPort s with
    | Ok (host, port) => (host, port)
    | Err _ =>
        (* Assume no port was provided and use the default. *)
        (s, keylightPort)
    end in
  (* Assume HTTP if no scheme provided and verify this URL is well formed by
     verifying it again. *)
  let s := url.String (url.mkURL "http" "" None (net.JoinHostPort host port)
                                 "" "" false "" "") in
  buildAddr s.

Fixpoint buildAddr_fuel (fuel : nat) (s : string) : option (result string) :=
  match fuel with
  | O => None
  | S fuel' =>
      if negb (strings.Contains s "://") then
        (* Assume that if no scheme is provided, this is host or host:port. *)
        buildHostPort_fuel (buildAddr_fuel fuel') s
      else
        match url.Parse s with
        | Err err => Some (Err err)
        | Ok u =>
            (* Trim trailing slash for consistency. *)
            let u := if String.eqb (url.Path u) "/" then url.set_Path u "" else u in
            (* Only allow HTTP(S) with non-empty host and empty path. *)
            if (negb (String.eqb (url.Scheme u) "http")
                && negb (String.eqb (url.Scheme u) "https"))
               || String.eqb (url.Host u) ""
               || negb (String.eqb (url.Path u) "")
            then Some (Err (errorf_q "invalid device URL: " (url.String u) ""))
            else Some (Ok (url.String u))
        end
  end.

(** [buildAddr] builds a well-formed HTTP endpoint address from [s].  Two
    levels of calls are all a run takes ([buildAddr_fuel_enough] below), so
    the last branch is never reached. *)
Definition buildAddr (s : string) : result string :=
  match buildAddr_fuel 2 s with
  | Some r => r
  | None => Err (errorString "")
  end.

Definition buildHostPort (s : string) : result string :=
  match buildHostPort_fuel (buildAddr_fuel 1) s with
  | Some r => r
  | None => Err (errorString "")
  end.

(** ** Device data *)

(** The fields of [keylight.Device] and [keylight.Light] the handler reads;
    Go's [int] is a [Z].  The pointers of [Data] are to values: the fetcher
    returns no nil device and no nil light next to a nil error. *)
Record Device : Type := mkDevice {
  DisplayName : string;
  FirmwareVersion : string;
  SerialNumber : string
}.

Record Light : Type := mkLight {
  On : bool;
  Brightness : Z;
  Temperature : Z
}.

(** [Data] contains information which is used to export Prometheus
    metrics. *)
Record Data : Type := mkData {
  Device_of : Device;
  Lights : list Light
}.

(** [float64] values are IEEE 754 binary64 numbers. *)
Definition float64 : Type := spec_float.

(** The conversion [float64(n)] of an integer: the nearest binary64. *)
Definition float64_of_int (n : Z) : float64 := binary_normalize 53 1024 n 0 false.

Definition float_1_0 : float64 := S754_finite false 4503599627370496 (-52).
Definition float_0_0 : float64 := S754_zero false.

(** [boolFloat] converts [b] to a float64 0.0 or 1.0 value. *)
Definition boolFloat (b : bool) : float64 :=
  if b then float_1_0 else float_0_0.

(** ** Prometheus metric names. *)
Definition klInfo : string := "keylight_info".
Definition klLightOn : string := "keylight_light_on".
Definition klLightBrightnessPercent : string := "keylight_light_brightness_percent".
Definition klLightTemperatureKelvin : string := "keylight_light_temperature_kelvin".

(** ** Computations that emit metrics and may panic *)

(** One constant metric sent to the registry: the gauge it belongs to, its
    value and its label values. *)
Record sample : Type := mkSample {
  sample_name : string;
  sample_value : float64;
  sample_labels : list string
}.

#[global] Instance spec_float_eq_dec : EqDecision spec_float.
Proof. solve_decision. Defined.
#[global] Instance sample_eq_dec : EqDecision sample.
Proof. solve_decision. Defined.

Inductive outcome (A : Type) : Type :=
| Return (a : A)
| Panic (v : string).
Arguments Return {A} a.
Arguments Panic {A} v.

(** A computation over the samples sent so far.  A panic ends it and keeps
    what was sent before. *)
Definition M (A : Type) : Type := list sample -> outcome A * list sample.

#[global] Instance M_ret : MRet M := fun A a st => (Return a, st).
#[global] Instance M_bind : MBind M := fun A B f m st =>
  match m st with
  | (Return a, st') => f a st'
  | (Panic v, st') => (Panic v, st')
  end.

Definition panic {A} (v : string) : M A := fun st => (Panic v, st).

(** The [func(value float64, labels ...string)] that metricslite hands out
    for the gauge [name]: it sends one constant metric. *)
Definition collector : Type := float64 -> list string -> M unit.

Definition emit (name : string) : collector :=
  fun value labels st => (Return tt, st ++ [mkSample name value labels]).

(** [for i, x := range l { body }] *)
Fixpoint for_range {A} (i : nat) (l : list A) (body : nat -> A -> M unit) : M unit :=
  match l with
  | [] => mret tt
  | x :: l' => body i x ≫= fun _ => for_range (S i) l' body
  end.

(** [for k, v := range m { body }] over a map, whose entries come as the
    list [entries] in the order the loop visits them. *)
Fixpoint for_entries {K V} (entries : list (K * V)) (body : K -> V -> M unit) : M unit :=
  match entries with
  | [] => mret tt
  | (k, v) :: rest => body k v ≫= fun _ => for_entries rest body
  end.

(** [%d] of a non-negative index. *)
Definition itoa (i : nat) : string := NilEmpty.string_of_uint (Nat.to_uint i).

(** A [metricslite.ScrapeFunc]: from the map of gauge names to collectors,
    given as its entries in iteration order, to the returned [error]. *)
Definition ScrapeFunc : Type := list (string * collector) -> M (option error).

(** The gauges registered by [ConstGauge], with their help text and label
    names, and the scrape function set by [OnConstScrape]. *)
Record metricslite : Type := mkMetricslite {
  consts : gmap string (string * list string);
  onConstScrape : option ScrapeFunc
}.

Definition ConstGauge (name help : string) (labelNames : list string)
    (mm : metricslite) : metricslite :=
  mkMetricslite (<[name := (help, labelNames)]> (consts mm)) (onConstScrape mm).

Definition OnConstScrape (scrape : ScrapeFunc) (mm : metricslite) : metricslite :=
  mkMetricslite (consts mm) (Some scrape).

(** The map that a collection pass gives to the scrape function: one
    collector for each registered gauge. *)
Definition funcs (mm : metricslite) : gmap string collector :=
  map_imap (fun name _ => Some (emit name)) (consts mm).

(** Go leaves the order of a [range] over a map unspecified: any
    permutation of the entries is an iteration order. *)
Definition iteration_order (mm : metricslite) (order : list (string * collector)) : Prop :=
  order ≡ₚ map_to_list (funcs mm).

(** The registrations made by [NewHandler]. *)
Definition NewHandler_mm : metricslite :=
  let mm := mkMetricslite ∅ None in
  let mm := ConstGauge klInfo "Metadata about an Elgato Key Light device."
                       ["firmware"; "name"; "serial"] mm in
  let labels := ["light"; "serial"] in
  let mm := ConstGauge klLightOn
    "Reports whether a given light on a device is turned on (0: off, 1: on)."
    labels mm in
  let mm := ConstGauge klLightBrightnessPercent
    "The brightness percentage of a given light on a device." labels mm in
  let mm := ConstGauge klLightTemperatureKelvin
    "The color temperature in Kelvin of a given light on a device." labels mm in
  mm.

(** ** HTTP *)

(** What the client of one request gets: a status code and a body, or no
    response at all, when the handler or the collection pass panics with
    the value [v]; a panic in the collection pass ends the process. *)
Inductive Response : Type :=
| Respond (code : Z) (body : string)
| Aborted (v : string).

Definition StatusOK : Z := 200.
Definition StatusBadRequest : Z := 400.
Definition StatusInternalServerError : Z := 500.

(** [http.Error] replies with the message, a newline after it, and the
    code. *)
Definition newline : string := String "010" EmptyString.

Definition http_Error (error : string) (code : Z) : Response :=
  Respond code (error +:+ newline).

(** The query of a request, as [r.URL.Query()] returns it. *)
Record Request : Type := mkRequest {
  Query : gmap string (list string)
}.

(** [Values.Get]: the first value associated with the key, or [""] . *)
Definition Values_Get (v : gmap string (list string)) (key : string) : string :=
  match v !! key with
  | Some (x :: _) => x
  | _ => ""
  end.

(** The actions of a handler on what it shares with the other requests,
    each with the rest of the run: the fetcher [h.f], the mutex [h.mu], the
    metrics [h.mm] and the metrics handler [h.metrics]. *)
Inductive prog : Type :=
| Ret (resp : Response)                               (* return *)
| CallFetch (addr : string) (k : result Data -> prog) (* h.f.Fetch(ctx, addr) *)
| Lock (k : prog)                                     (* h.mu.Lock() *)
| SetScrape (scrape : ScrapeFunc) (k : prog)          (* h.mm.OnConstScrape(scrape) *)
| ServeMetrics (k : Response -> prog)                 (* h.metrics.ServeHTTP(w, r) *)
| Unlock (k : prog).                                  (* h.mu.Unlock() *)

Section Handler.

(** [strconv.Quote], which the [%q] verb of [fmt] applies. *)
Variable quote : string -> string.

(** The text encoder of the Prometheus client, from the metrics gathered
    to the body. *)
Variable encode : list sample -> string.

(** The [Error] method. *)
Fixpoint Error (e : error) : string :=
  match e with
  | errorString msg => msg
  | errorf_q pre arg post => pre +:+ quote arg +:+ post
  | EscapeError s => "invalid URL escape " +:+ quote s
  | InvalidHostError s => "invalid character " +:+ quote s +:+ " in host name"
  | AddrError why addr =>
      if String.eqb addr "" then why else "address " +:+ addr +:+ ": " +:+ why
  | url_Error op url err => op +:+ " " +:+ quote url +:+ ": " +:+ Error err
  end.

(** [panicf(format, a)] for a format that ends in its one verb, [%q]. *)
Definition panicf {A} (format : string) (a : string) : M A :=
  panic (format +:+ quote a).

(** [scrapeDevice] gathers metrics for a single device's data. *)
Definition scrapeDevice (d : Data) : ScrapeFunc :=
  let serial := SerialNumber (Device_of d) in
  fun metrics =>
    for_entries metrics (fun name c =>
      if bool_decide (name = klInfo) then
        c float_1_0 [FirmwareVersion (Device_of d); DisplayName (Device_of d); serial]
      else if bool_decide (name = klLightOn)
              || bool_decide (name = klLightBrightnessPercent)
              || bool_decide (name = klLightTemperatureKelvin) then
        for_range 0 (Lights d) (fun i l =>
          let light := "light" +:+ itoa i in
          if bool_decide (name = klLightOn) then
            c (boolFloat (On l)) [light; serial]
          else if bool_decide (name = klLightBrightnessPercent) then
            c (float64_of_int (Brightness l)) [light; serial]
          else if bool_decide (name = klLightTemperatureKelvin) then
            c (float64_of_int (Temperature l)) [light; serial]
          else panicf "keylight_exporter: unhandled light metric " name)
      else panicf "keylight_exporter: unhandled metric " name)
    ≫= fun _ => mret None.

(** [ServeHTTP] implements [http.Handler]. *)
Definition ServeHTTP (r : Request) : prog :=
  (* Prometheus is configured to send a target parameter with each scrape
     request. This determines which device should be scraped for metrics. *)
  let target := Values_Get (Query r) "target" in
  if String.eqb target "" then
    Ret (http_Error "missing target parameter" StatusBadRequest)
  else
    match buildAddr target with
    | Err err =>
        Ret (http_Error ("malformed target parameter: " +:+ Error err)
                        StatusBadRequest)
    | Ok addr =>
        CallFetch addr (fun res =>
          match res with
          | Err err =>
              Ret (http_Error ("failed to fetch Key Light data from "
                                 +:+ quote addr +:+ ": " +:+ Error err)
                              StatusInternalServerError)
          | Ok d =>
              (* Ensure that concurrent requests for metrics for multiple
                 devices are serialized so the metrics do not get
                 mismatched. *)
              Lock (
                SetScrape (scrapeDevice d) (
                  ServeMetrics (fun resp =>
                    (* defer h.mu.Unlock() *)
                    Unlock (Ret resp))))
          end)
    end.

(** *** The metrics handler *)

(** [h.metrics.ServeHTTP]: a collection pass runs the scrape function
    that is set at that moment over the collectors in the order [order],
    and encodes what was sent.  A panic of the scrape function is a panic
    of the pass, and so is a pass with no scrape function set, which calls
    a nil function; [ServeHTTP] sets the function before each pass. *)
Definition metrics_ServeHTTP (mm : metricslite)
    (order : list (string * collector)) : Response :=
  match onConstScrape mm with
  | None => Aborted "runtime error: invalid memory address or nil pointer dereference"
  | Some scrape =>
      match scrape order [] with
      | (Return _, sent) => Respond StatusOK (encode sent)
      | (Panic v, _) => Aborted v
      end
  end.

(** *** One request on its own *)

(** The state of a handler: [h.mu] and [h.mm]. *)
Record handler : Type := mkHandler {
  mu : bool;            (* the mutex is locked *)
  mm : metricslite
}.

Definition NewHandler : handler := mkHandler false NewHandler_mm.

Inductive event : Type :=
| EvFetchCall (addr : string)
| EvFetchReturn (res : result Data)
| EvLock
| EvOnConstScrape
| EvServeMetrics (resp : Response)
| EvUnlock
| EvReturn (resp : Response).

(** The run of a request while no other request is being served: the
    events in their order, the response and the handler afterwards.
    [None] is a run that blocks: [Lock] on a locked mutex. *)
Fixpoint run (f : string -> result Data) (order : list (string * collector))
    (p : prog) (h : handler) : option (list event * Response * handler) :=
  match p with
  | Ret resp => Some ([EvReturn resp], resp, h)
  | CallFetch addr k =>
      let res := f addr in
      '(tr, resp, h') ← run f order (k res) h;
      Some (EvFetchCall addr :: EvFetchReturn res :: tr, resp, h')
  | Lock k =>
      if mu h then None
      else
        '(tr, resp, h') ← run f order k (mkHandler true (mm h));
        Some (EvLock :: tr, resp, h')
  | SetScrape scrape k =>
      '(tr, resp, h') ← run f order k (mkHandler (mu h) (OnConstScrape scrape (mm h)));
      Some (EvOnConstScrape :: tr, resp, h')
  | ServeMetrics k =>
      let resp := metrics_ServeHTTP (mm h) order in
      '(tr, resp', h') ← run f order (k resp) h;
      Some (EvServeMetrics resp :: tr, resp', h')
  | Unlock k =>
      '(tr, resp, h') ← run f order k (mkHandler false (mm h));
      Some (EvUnlock :: tr, resp, h')
  end.

(** *** Requests served at the same time *)

(** A request being served: the snapshot [d] once the fetch has returned
    it, and the rest of its run. *)
Record goroutine : Type := mkGoroutine {
  local_d : option Data;
  code : prog
}.

Record server : Type := mkServer {
  shared : handler;
  pool : gmap nat goroutine
}.

Definition server_init : server := mkServer NewHandler ∅.

(** One step of a server whose handler is [serve]: a request arrives, or
    one of the requests being served performs its next action.  The fetcher
    may answer anything. *)
Inductive step (serve : Request -> prog) : server -> server -> Prop :=
| step_accept h gs t r :
    gs !! t = None ->
    step serve (mkServer h gs) (mkServer h (<[t := mkGoroutine None (serve r)]> gs))
| step_fetch h gs t od addr k res :
    gs !! t = Some (mkGoroutine od (CallFetch addr k)) ->
    step serve (mkServer h gs)
         (mkServer h (<[t := mkGoroutine
                               (match res with Ok d => Some d | Err _ => od end)
                               (k res)]> gs))
| step_lock h gs t od k :
    gs !! t = Some (mkGoroutine od (Lock k)) ->
    mu h = false ->
    step serve (mkServer h gs)
         (mkServer (mkHandler true (mm h)) (<[t := mkGoroutine od k]> gs))
| step_set_scrape h gs t od scrape k :
    gs !! t = Some (mkGoroutine od (SetScrape scrape k)) ->
    step serve (mkServer h gs)
         (mkServer (mkHandler (mu h) (OnConstScrape scrape (mm h)))
                   (<[t := mkGoroutine od k]> gs))
| step_serve_metrics h gs t od k order :
    gs !! t = Some (mkGoroutine od (ServeMetrics k)) ->
    iteration_order (mm h) order ->
    step serve (mkServer h gs)
         (mkServer h (<[t := mkGoroutine od (k (metrics_ServeHTTP (mm h) order))]> gs))
| step_unlock h gs t od k :
    gs !! t = Some (mkGoroutine od (Unlock k)) ->
    step serve (mkServer h gs)
         (mkServer (mkHandler false (mm h)) (<[t := mkGoroutine od k]> gs)).

Definition reachable (s : server) : Prop := rtc (step ServeHTTP) server_init s.

End Handler.

(** ** Predicates of the statements *)

(** The bytes other than [c]. *)
Definition is_not (c : ascii) : ascii -> bool := fun b => negb (Ascii.eqb b c).

(** The bytes that end the authority of a URL: the path starts at [/], the
    query at [?], the fragment at [#]. *)
Definition is_delim (c : ascii) : bool := byte_of ["/"; "?"; "#"]%char c.

(** An endpoint string without its scheme, when that is http or https. *)
Definition strip_scheme (s : string) : option string :=
  if strings.HasPrefix s "http://" then Some (slice_from 7 s)
  else if strings.HasPrefix s "https://" then Some (slice_from 8 s)
  else None.

(** The authority at the head of [s], and what follows it. *)
Fixpoint span_authority (s : string) : string * string :=
  match s with
  | EmptyString => ("", "")
  | String c s' =>
      if is_delim c then ("", s)
      else let '(a, rest) := span_authority s' in (String c a, rest)
  end.

(** The host part of an authority, the field [Host] of a parsed URL: what
    follows the user information, that is the host name, a colon and a
    port, or both. *)
Definition authority_hostport (a : string) : string :=
  match strings.LastIndex a "@" with
  | Some i => slice_from (i + 1) a
  | None => a
  end.

(** The host name of a host part: the host part without its port, and
    without the brackets of an IP literal. *)
Definition hostport_name (hp : string) : string :=
  match strings.Index hp ":" with
  | None => hp
  | Some colon =>
      match strings.Index hp "]" with
      | Some i =>
          let h := slice_to i hp in
          if strings.HasPrefix h "[" then slice_from 1 h else h
      | None => slice_to colon hp
      end
  end.

(** [out] has scheme http or https, a host part that is not empty (a host
    name, a colon and a port, or both), and no path: after the authority
    comes nothing, a query or a fragment.  The host name may be empty
    when a colon follows it. *)
Definition endpoint_has_no_path (out : string) : bool :=
  match strip_scheme out with
  | None => false
  | Some r =>
      let '(a, rest) := span_authority r in
      negb (String.eqb (authority_hostport a) "") && negb (strings.HasPrefix rest "/")
  end.

(** [out] has scheme http or https, a host name that is not empty, and
    neither a path nor a query nor a fragment: nothing comes after the
    authority. *)
Definition endpoint_is_bare (out : string) : bool :=
  match strip_scheme out with
  | None => false
  | Some r =>
      let '(a, rest) := span_authority r in
      negb (String.eqb (hostport_name (authority_hostport a)) "")
      && String.eqb rest ""
  end.

(** The authority that [URL.String] prints, and what it prints after an
    empty path. *)
Definition authority_of (u : url.URL) : string :=
  match url.User u with
  | Some _ => url.Userinfo_String (url.User u) +:+ "@"
  | None => ""
  end +:+ url.escape (url.Host u) url.encodeHost.

Definition tail_of (u : url.URL) : string :=
  (if url.ForceQuery u || negb (String.eqb (url.RawQuery u) "")
   then "?" +:+ url.RawQuery u else "")
  +:+ (if negb (String.eqb (url.Fragment u) "")
       then "#" +:+ url.escape (url.Fragment u) url.encodeFragment else "").

(** The text that an escaped text stands for, in the parts of a URL where
    [+] is not a space: each [%XY] is the byte it names. *)
Fixpoint decode (s : string) : string :=
  match s with
  | EmptyString => EmptyString
  | String c s1 =>
      if Ascii.eqb c "%" then
        match s1 with
        | String a (String b s3) => String (url.unhex2 a b) (decode s3)
        | _ => s
        end
      else String c (decode s1)
  end.

Definition hexchars : list ascii :=
  ["0"; "1"; "2"; "3"; "4"; "5"; "6"; "7"; "8"; "9"; "A"; "B"; "C"; "D"; "E"; "F"]%char.

(** The four gauges that [NewHandler] declares. *)
Definition declared : list string :=
  [klInfo; klLightOn; klLightBrightnessPercent; klLightTemperatureKelvin].

Definition is_declared (name : string) : bool := bool_decide (name ∈ declared).

Definition light_value (name : string) (l : Light) : float64 :=
  if bool_decide (name = klLightOn) then boolFloat (On l)
  else if bool_decide (name = klLightBrightnessPercent) then float64_of_int (Brightness l)
  else float64_of_int (Temperature l).

(** What a pass sends for the gauge [name]. *)
Definition emitted (d : Data) (name : string) : list sample :=
  if bool_decide (name = klInfo) then
    [mkSample klInfo float_1_0
       [FirmwareVersion (Device_of d); DisplayName (Device_of d);
        SerialNumber (Device_of d)]]
  else
    imap (fun i l => mkSample name (light_value name l)
                       ["light" +:+ itoa i; SerialNumber (Device_of d)])
         (Lights d).

(** The map that metricslite passes, for the gauges [names] in that order. *)
Definition entries (names : list string) : list (string * collector) :=
  map (fun name => (name, emit name)) names.

(** The snapshot of the test of the handler. *)
Definition test_Data : Data :=
  mkData (mkDevice "test" "1.0.0" "1111")
         [mkLight true 20 4200; mkLight false 0 0].

(** ** The stages of a request *)

Section ServerDefs.
Variable quote : string -> string.
Variable encode : list sample -> string.

(** The critical section of a request that has fetched [d]. *)
Definition critical (d : Data) : prog :=
  SetScrape (scrapeDevice quote d)
            (ServeMetrics (fun resp => Unlock (Ret resp))).

(** The rest of a request once the fetch from [addr] has returned. *)
Definition after_fetch (addr : string) (res : result Data) : prog :=
  match res with
  | Err err =>
      Ret (http_Error ("failed to fetch Key Light data from "
                         +:+ quote addr +:+ ": " +:+ Error quote err)
                      StatusInternalServerError)
  | Ok d => Lock (critical d)
  end.

(** A goroutine is between its [Lock] and its [Unlock]. *)
Definition holds (g : goroutine) : Prop :=
  match code g with
  | SetScrape _ _ | ServeMetrics _ | Unlock _ => True
  | _ => False
  end.

(** [resp] is the encoding of the samples of one pass over [d], and of
    nothing else. *)
Definition rendered (d : Data) (resp : Response) : Prop :=
  exists order sent,
    iteration_order NewHandler_mm order
    /\ scrapeDevice quote d order [] = (Return None, sent)
    /\ resp = Respond StatusOK (encode sent).

(** Where a request can be, given the handler it shares. *)
Inductive stage (h : handler) : goroutine -> Prop :=
| stage_start r : stage h (mkGoroutine None (ServeHTTP quote r))
| stage_failed resp : stage h (mkGoroutine None (Ret resp))
| stage_fetched d : stage h (mkGoroutine (Some d) (Lock (critical d)))
| stage_locked d :
    mu h = true -> stage h (mkGoroutine (Some d) (critical d))
| stage_scraped d :
    mu h = true -> onConstScrape (mm h) = Some (scrapeDevice quote d) ->
    stage h (mkGoroutine (Some d) (ServeMetrics (fun resp => Unlock (Ret resp))))
| stage_rendered d resp :
    mu h = true -> rendered d resp ->
    stage h (mkGoroutine (Some d) (Unlock (Ret resp)))
| stage_returned d resp :
    rendered d resp -> stage h (mkGoroutine (Some d) (Ret resp)).

Record server_inv (s : server) : Prop := mkServerInv {
  inv_consts : consts (mm (shared s)) = consts NewHandler_mm;
  inv_stage : forall t g, pool s !! t = Some g -> stage (shared s) g;
  inv_excl : forall t1 t2 g1 g2,
    pool s !! t1 = Some g1 -> pool s !! t2 = Some g2 ->
    holds g1 -> holds g2 -> t1 = t2
}.
End ServerDefs.

(** ** The request of the test *)

Definition test_Request : Request := mkRequest {[ "target" := ["foo:9123"] ]}.

(** The fetcher of the test answers with its snapshot. *)
Definition test_Fetch : string -> result Data := fun _ => Ok test_Data.

(** [strconv.Quote] on text that is printable ASCII without quotes and
    backslashes: the text in double quotes. *)
Definition quote_plain (s : string) : string :=
  String "034" s +:+ String "034" EmptyString.

(** An encoder: a sample on a line, as its name and its label values. *)
Definition test_encode (sent : list sample) : string :=
  String.concat newline
    (map (fun x => sample_name x +:+ "{"
                   +:+ String.concat "," (sample_labels x) +:+ "}")
         sent).

(** The iteration order of the test, and what its run leaves. *)
Definition test_order : list (string * collector) := map_to_list (funcs NewHandler_mm).

Definition test_mm : metricslite :=
  OnConstScrape (scrapeDevice quote_plain test_Data) NewHandler_mm.

Definition test_resp : Response := metrics_ServeHTTP test_encode test_mm test_order.

(** The server once it has served the request of the test. *)
Definition test_server : server :=
  mkServer (mkHandler false test_mm)
    (<[0%nat := mkGoroutine (Some test_Data) (Ret test_resp)]>
      (<[0%nat := mkGoroutine (Some test_Data) (Unlock (Ret test_resp))]>
        (<[0%nat := mkGoroutine (Some test_Data)
                      (ServeMetrics (fun resp => Unlock (Ret resp)))]>
          (<[0%nat := mkGoroutine (Some test_Data) (critical quote_plain test_Data)]>
            (<[0%nat := mkGoroutine (Some test_Data)
                          (Lock (critical quote_plain test_Data))]>
              (<[0%nat := mkGoroutine None (ServeHTTP quote_plain test_Request)]>
                ∅)))))).

(** The handler [p] without its mutex, to compare. *)
Fixpoint unlocked (p : prog) : prog :=
  match p with
  | Ret resp => Ret resp
  | CallFetch addr k => CallFetch addr (fun res => unlocked (k res))
  | Lock k => unlocked k
  | SetScrape scrape k => SetScrape scrape (unlocked k)
  | ServeMetrics k => ServeMetrics (fun resp => unlocked (k resp))
  | Unlock k => unlocked k
  end.

(** A second device, and a request for it. *)
Definition other_Data : Data :=
  mkData (mkDevice "other" "1.0.0" "2222") [mkLight false 5 2900].

Definition other_Request : Request := mkRequest {[ "target" := ["bar"] ]}.

(** Two requests served at the same time without the mutex: the first one
    renders what the second one has set. *)
Definition other_mm : metricslite :=
  OnConstScrape (scrapeDevice quote_plain other_Data) NewHandler_mm.

Definition mixed_resp : Response := metrics_ServeHTTP test_encode other_mm test_order.

Definition mixed_server : server :=
  mkServer (mkHandler false other_mm)
    (<[0%nat := mkGoroutine (Some test_Data) (Ret mixed_resp)]>
      (<[1%nat := mkGoroutine (Some other_Data)
                    (ServeMetrics (fun resp => Ret resp))]>
        (<[0%nat := mkGoroutine (Some test_Data)
                      (ServeMetrics (fun resp => Ret resp))]>
          (<[1%nat := mkGoroutine (Some other_Data)
                        (unlocked (Lock (critical quote_plain other_Data)))]>
            (<[0%nat := mkGoroutine (Some test_Data)
                          (unlocked (Lock (critical quote_plain test_Data)))]>
              (<[1%nat := mkGoroutine None
                            (unlocked (ServeHTTP quote_plain other_Request))]>
                (<[0%nat := mkGoroutine None
                              (unlocked (ServeHTTP quote_plain test_Request))]>
                  ∅))))))).

(** ** Inputs of the normaliser *)

(** A byte of a host name: a letter, a digit, [-] or [.]. *)
Definition name_byte (c : ascii) : bool :=
  byte_in "a" "z" c || byte_in "A" "Z" c || byte_in "0" "9" c
  || byte_of ["-"; "."]%char c.

(** A byte of an address: a byte of a host name or a colon. *)
Definition addr_byte (c : ascii) : bool := name_byte c || Ascii.eqb c ":".

Definition digit_byte (c : ascii) : bool := byte_in "0" "9" c.

(** A byte that is written as it is in the host of a URL. *)
Definition plain_byte (c : ascii) : bool := negb (url.shouldEscape c url.encodeHost).

(** The host and port that [buildHostPort] joins for [s]. *)
Definition hostport_of (s : string) : string :=
  let '(host, port) :=
    match net.SplitHostPort s with
    | Ok (host, port) => (host, port)
    | Err _ => (s, keylightPort)
    end in
  net.JoinHostPort host port.

(** A group of an IPv6 address: one to four hexadecimal digits. *)
Definition hex_group (g : string) : bool :=
  (1 <=? String.length g)%nat && (String.length g <=? 4)%nat
  && all_bytes url.ishex g.

(** The text of an IPv6 address: the eight groups [gs1] with colons between
    them, or, with one [::] in the place of groups of zeros that are left
    out, the groups [gs1] before it and the groups [gs2] after it. *)
Definition ipv6_text (gs1 : list string) (gs2 : option (list string)) : string :=
  match gs2 with
  | None => String.concat ":" gs1
  | Some gs2 => String.concat ":" gs1 +:+ "::" +:+ String.concat ":" gs2
  end.

Definition is_ipv6 (gs1 : list string) (gs2 : option (list string)) : bool :=
  forallb hex_group gs1
  && match gs2 with
     | None => (length gs1 =? 8)%nat
     | Some gs2 => forallb hex_group gs2 && (length gs1 + length gs2 <=? 7)%nat
     end.

(** A path, as it follows an authority: nothing, or text from a slash on
    without [?] and [#]. *)
Definition is_path (path : string) : bool :=
  (String.eqb path "" || strings.HasPrefix path "/")
  && all_bytes (is_not "?") path && all_bytes (is_not "#") path.

(** ** Samples of a pass *)

(** The name and the label values of a sample: what the registry tells
    samples apart by. *)
Definition sample_key (x : sample) : string * list string :=
  (sample_name x, sample_labels x).

(** The iteration order of the test, backwards. *)
Definition reverse_order : list (string * collector) := reverse test_order.

(** ** The mutex and its holder *)

(** A locked mutex has its holder among the requests being served. *)
Definition held (s : server) : Prop :=
  mu (shared s) = true -> exists t g, pool s !! t = Some g /\ holds g.

(** A server with two requests that have their snapshots: the first one
    has locked the mutex, the second one waits for it. *)
Definition waiting_server : server :=
  mkServer (mkHandler true NewHandler_mm)
    (<[0%nat := mkGoroutine (Some test_Data) (critical quote_plain test_Data)]>
      (<[1%nat := mkGoroutine (Some other_Data)
                    (Lock (critical quote_plain other_Data))]>
        (<[0%nat := mkGoroutine (Some test_Data)
                      (Lock (critical quote_plain test_Data))]>
          (<[1%nat := mkGoroutine None (ServeHTTP quote_plain other_Request)]>
            (<[0%nat := mkGoroutine None (ServeHTTP quote_plain test_Request)]>
              ∅))))).

(** ** The default fetcher *)

Section Fetcher.
Variable quote : string -> string.

(** [*keylight.Client], and the calls of the package keylight that the
    fetcher makes: [keylight.NewClient(addr, nil)], [c.AccessoryInfo(ctx)]
    and [c.Lights(ctx)]. *)
Variable Client : Type.
Variable keylight_NewClient : string -> result Client.
Variable Client_AccessoryInfo : Client -> result Device.
Variable Client_Lights : Client -> result (list Light).

(** [fmt.Errorf(format, err)] for a format that ends in its one verb, [%v]. *)
Definition Errorf_v (format : string) (err : error) : error :=
  errorString (format +:+ Error quote err).

(** [Fetch] implements [Fetcher]. *)
Definition httpFetcher_Fetch (addr : string) : result Data :=
  match keylight_NewClient addr with
  | Err err => Err (Errorf_v "failed to create client: " err)
  | Ok c =>
      match Client_AccessoryInfo c with
      | Err err => Err (Errorf_v "failed to fetch device: " err)
      | Ok d =>
          match Client_Lights c with
          | Err err => Err (Errorf_v "failed to fetch lights: " err)
          | Ok ls => Ok (mkData d ls)
          end
      end
  end.

(** The fetcher of the handler that [NewHandler] returns: [f], or the
    default one if [f] is nil. *)
Definition NewHandler_f (f : option (string -> result Data)) : string -> result Data :=
  match f with
  | Some f => f
  | None => httpFetcher_Fetch
  end.
End Fetcher.

(** A device that answers the first call and fails the second. *)
Definition failing_AccessoryInfo : unit -> result Device :=
  fun _ => Err (errorString "context deadline exceeded").

(** * Properties *)

(** ** Strings *)

Section StringFacts.

Lemma append_nil_r (s : string) : s +:+ "" = s.
Proof. induction s as [|c s IH]; simpl; [done | by rewrite IH]. Qed.

Lemma append_assoc (s1 s2 s3 : string) :
  (s1 +:+ s2) +:+ s3 = s1 +:+ (s2 +:+ s3).
Proof. induction s1 as [|c s1 IH]; simpl; [done | by rewrite IH]. Qed.

Lemma append_length (s1 s2 : string) :
  String.length (s1 +:+ s2) = (String.length s1 + String.length s2)%nat.
Proof. induction s1 as [|c s1 IH]; simpl; [done | by rewrite IH]. Qed.

Lemma append_eq_nil (s1 s2 : string) : s1 +:+ s2 = "" -> s1 = "" /\ s2 = "".
Proof. destruct s1; simpl; [done | discriminate]. Qed.

Lemma eqb_nil_false (s : string) : s <> "" -> String.eqb s "" = false.
Proof. intros H. by apply String.eqb_neq. Qed.

Lemma slice_to_from (n : nat) (s : string) : slice_to n s +:+ slice_from n s = s.
Proof.
  revert s; induction n as [|n IH]; intros [|c s]; simpl; try done.
  by rewrite IH.
Qed.

Lemma slice_to_length (n : nat) (s : string) :
  (String.length (slice_to n s) <= n)%nat.
Proof.
  revert s; induction n as [|n IH]; intros [|c s]; simpl; try lia.
  specialize (IH s). lia.
Qed.

Lemma slice_from_from (n m : nat) (s : string) :
  slice_from m (slice_from n s) = slice_from (n + m) s.
Proof.
  revert s; induction n as [|n IH]; intros s; simpl; [done |].
  destruct s as [|c s]; [by destruct m | apply IH].
Qed.

Lemma slice_from_app_length (s1 s2 : string) :
  slice_from (String.length s1) (s1 +:+ s2) = s2.
Proof. induction s1 as [|c s1 IH]; simpl; done. Qed.

Lemma all_bytes_app (p : ascii -> bool) (s1 s2 : string) :
  all_bytes p (s1 +:+ s2) = all_bytes p s1 && all_bytes p s2.
Proof.
  induction s1 as [|c s1 IH]; simpl; [done |].
  rewrite IH. by destruct (p c).
Qed.

Lemma all_bytes_impl (p q : ascii -> bool) (s : string) :
  (forall c, p c = true -> q c = true) ->
  all_bytes p s = true -> all_bytes q s = true.
Proof.
  intros Hpq. induction s as [|c s IH]; simpl; [done |].
  intros [Hc Hs]%andb_true_iff. rewrite (Hpq _ Hc). by apply IH.
Qed.

Lemma prefix_byte (c b : ascii) (s : string) :
  String.prefix (String c "") (String b s) = Ascii.eqb c b.
Proof.
  simpl. destruct (ascii_dec c b) as [->|Hne].
  - rewrite Ascii.eqb_refl. by destruct s.
  - symmetry. by apply Ascii.eqb_neq.
Qed.

Lemma Index_byte_None (c : ascii) (s : string) :
  all_bytes (is_not c) s = true -> strings.Index s (String c "") = None.
Proof.
  induction s as [|b s IH]; [done |].
  intros [Hb Hs]%andb_true_iff.
  change (strings.Index (String b s) (String c ""))
    with (if String.prefix (String c "") (String b s) then Some 0%nat
          else S <$> strings.Index s (String c "")).
  rewrite prefix_byte, Ascii.eqb_sym.
  unfold is_not in Hb. apply negb_true_iff in Hb. rewrite Hb.
  by rewrite (IH Hs).
Qed.

Lemma LastIndex_byte_None (c : ascii) (s : string) :
  all_bytes (is_not c) s = true -> strings.LastIndex s (String c "") = None.
Proof.
  induction s as [|b s IH]; [done |].
  intros [Hb Hs]%andb_true_iff.
  change (strings.LastIndex (String b s) (String c ""))
    with (match strings.LastIndex s (String c "") with
          | Some i => Some (S i)
          | None => if String.prefix (String c "") (String b s)
                    then Some 0%nat else None
          end).
  rewrite (IH Hs), prefix_byte, Ascii.eqb_sym.
  unfold is_not in Hb. apply negb_true_iff in Hb. by rewrite Hb.
Qed.

Lemma CountByte_None (c : ascii) (s : string) :
  all_bytes (is_not c) s = true -> strings.CountByte s c = 0%nat.
Proof.
  induction s as [|b s IH]; [done |].
  intros [Hb Hs]%andb_true_iff. simpl.
  unfold is_not in Hb. apply negb_true_iff in Hb. rewrite Hb.
  by rewrite (IH Hs).
Qed.

Lemma split_byte_None (c : ascii) (s : string) (cutc : bool) :
  all_bytes (is_not c) s = true -> url.split s (String c "") cutc = (s, "").
Proof. intros H. unfold url.split. by rewrite (Index_byte_None _ _ H). Qed.

End StringFacts.


(** ** Escaping *)

Section EscapeFacts.

Lemma hexdigit_hexchars (n : N) : byte_of hexchars (url.hexdigit n) = true.
Proof.
  unfold url.hexdigit. generalize (N.to_nat n). intros k.
  do 16 (destruct k as [|k]; [reflexivity |]). reflexivity.
Qed.

Lemma byte_of_In (cs : list ascii) (c : ascii) :
  byte_of cs c = true <-> In c cs.
Proof.
  unfold byte_of. rewrite existsb_exists. split.
  - intros (x & Hx & ->%Ascii.eqb_eq). done.
  - intros H. exists c. split; [done | apply Ascii.eqb_refl].
Qed.

(** No byte that is to be escaped is left in an escaped text, unless it is
    one of the bytes that escaping writes. *)
Lemma escape_avoids (bad : ascii -> bool) (mode : url.encoding) (s : string) :
  (forall c, bad c = true -> url.shouldEscape c mode = true) ->
  bad "%"%char = false -> bad "+"%char = false ->
  (forall c, In c hexchars -> bad c = false) ->
  all_bytes (fun c => negb (bad c)) (url.escape s mode) = true.
Proof.
  intros Hesc Hpc Hplus Hhex. induction s as [|c s IH]; [done |].
  simpl. destruct (Ascii.eqb c " " && _).
  - simpl. by rewrite Hplus, IH.
  - destruct (url.shouldEscape c mode) eqn:Hc; simpl.
    + rewrite Hpc, !Hhex, IH; [done | |]; apply byte_of_In, hexdigit_hexchars.
    + destruct (bad c) eqn:Hb; [|by rewrite IH].
      apply Hesc in Hb. congruence.
Qed.

Lemma escape_no_byte (c : ascii) (mode : url.encoding) (s : string) :
  url.shouldEscape c mode && negb (byte_of ("%" :: "+" :: hexchars)%char c) = true ->
  all_bytes (is_not c) (url.escape s mode) = true.
Proof.
  intros [Hc Hn%negb_true_iff]%andb_true_iff.
  apply (escape_avoids (fun b => Ascii.eqb b c)).
  - by intros b ->%Ascii.eqb_eq.
  - destruct (Ascii.eqb_spec "%" c) as [<-|]; [done..].
  - destruct (Ascii.eqb_spec "+" c) as [<-|]; [done..].
  - intros b Hb. destruct (Ascii.eqb_spec b c) as [->|]; [|done].
    assert (byte_of ("%" :: "+" :: hexchars)%char c = true); [|congruence].
    apply byte_of_In. right; right. done.
Qed.

Lemma escape_no_ctl (mode : url.encoding) (s : string) :
  all_bytes (fun c => negb (url.is_ctl c)) (url.escape s mode) = true.
Proof.
  apply escape_avoids; [| done | done |].
  - intros c Hc. destruct mode;
      destruct c as [[] [] [] [] [] [] [] []]; try discriminate Hc; reflexivity.
  - intros c Hc. simpl in Hc.
    repeat (destruct Hc as [<-|Hc]; [reflexivity |]). done.
Qed.

Lemma escape_eq_nil (s : string) (mode : url.encoding) :
  url.escape s mode = "" -> s = "".
Proof.
  destruct s as [|c s]; [done |]. simpl.
  destruct (_ && _); [discriminate |]. by destruct (url.shouldEscape c mode).
Qed.

Lemma unescape_eq_nil (s : string) (mode : url.encoding) :
  url.unescape s mode = Ok "" -> s = "".
Proof.
  destruct s as [|c s]; [done |]. simpl.
  repeat case_match; unfold mbind, result_bind; repeat case_match; done.
Qed.

Lemma shouldEscape_percent (mode : url.encoding) : url.shouldEscape "%" mode = true.
Proof. by destruct mode. Qed.

Lemma unhex2_hexdigit (c : ascii) :
  url.unhex2 (url.hexdigit (N.shiftr (N_of_ascii c) 4))
             (url.hexdigit (N.land (N_of_ascii c) 15)) = c.
Proof. destruct c as [[] [] [] [] [] [] [] []]; reflexivity. Qed.

Lemma decode_escape (s : string) (mode : url.encoding) :
  mode <> url.encodeQueryComponent -> decode (url.escape s mode) = s.
Proof.
  intros Hm. induction s as [|c s IH]; [done |].
  simpl url.escape. rewrite (bool_decide_eq_false_2 _ Hm), andb_false_r.
  destruct (url.shouldEscape c mode) eqn:Hc.
  - simpl decode. by rewrite IH, unhex2_hexdigit.
  - simpl decode. destruct (Ascii.eqb_spec c "%") as [->|].
    + by rewrite shouldEscape_percent in Hc.
    + by rewrite IH.
Qed.

Lemma unescape_percent_inv (s1 y : string) (mode : url.encoding) :
  url.unescape (String "%" s1) mode = Ok y ->
  exists a b s3 t, s1 = String a (String b s3)
    /\ url.unescape s3 mode = Ok t /\ y = String (url.unhex2 a b) t.
Proof.
  destruct s1 as [|a [|b s3]]; [done.. |].
  intros H. exists a, b, s3.
  change (url.unescape (String "%" (String a (String b s3))) mode)
    with (let s := String "%" (String a (String b s3)) in
          if negb (url.ishex a && url.ishex b) then Err (EscapeError (slice_to 3 s))
          else if bool_decide (mode = url.encodeHost) && (url.unhex a <? 8)
                  && negb (String.eqb (slice_to 3 s) "%25")
          then Err (EscapeError (slice_to 3 s))
          else if bool_decide (mode = url.encodeZone)
                  && negb (String.eqb (slice_to 3 s) "%25")
                  && negb (Ascii.eqb (url.unhex2 a b) " ")
                  && url.shouldEscape (url.unhex2 a b) url.encodeHost
          then Err (EscapeError (slice_to 3 s))
          else t ← url.unescape s3 mode; Ok (String (url.unhex2 a b) t)) in H.
  cbv zeta in H.
  destruct (negb (url.ishex a && url.ishex b)); [done |].
  destruct (_ && _ && _); [done |].
  destruct (_ && _ && _ && _); [done |].
  unfold mbind, result_bind in H.
  destruct (url.unescape s3 mode) as [t|]; [|done].
  exists t. by simplify_eq.
Qed.

Lemma unescape_other_inv (c : ascii) (s1 y : string) (mode : url.encoding) :
  c <> "%"%char -> mode <> url.encodeQueryComponent ->
  url.unescape (String c s1) mode = Ok y ->
  exists t, url.unescape s1 mode = Ok t /\ y = String c t.
Proof.
  intros Hc Hm H. simpl in H.
  apply Ascii.eqb_neq in Hc. rewrite Hc in H.
  rewrite (bool_decide_eq_false_2 _ Hm) in H.
  unfold mbind, result_bind in H.
  destruct (Ascii.eqb_spec c "+") as [->|];
    repeat (case_match; try done); simplify_eq; eauto.
Qed.

(** A text that [unescape] accepts is made of whole [%XY] and single bytes,
    so decoding goes through an append. *)
Lemma unescape_decode_app (mode : url.encoding) (a y b : string) :
  mode <> url.encodeQueryComponent ->
  url.unescape a mode = Ok y -> decode (a +:+ b) = y +:+ decode b.
Proof.
  intros Hm. remember (String.length a) as n eqn:Hn.
  revert a y Hn. induction n as [n IH] using lt_wf_ind. intros a y Hn H.
  destruct a as [|c a]; [by simplify_eq/= |].
  destruct (Ascii.eqb_spec c "%") as [->|Hc].
  - apply unescape_percent_inv in H as (x1 & x2 & s3 & t & -> & Ht & ->).
    simpl. f_equal. eapply IH; [| done | done]. simpl in Hn. lia.
  - apply unescape_other_inv in H as (t & Ht & ->); [| done..].
    simpl. apply Ascii.eqb_neq in Hc. rewrite Hc. f_equal.
    eapply IH; [| done | done]. simpl in Hn. lia.
Qed.

Lemma unescape_decode (mode : url.encoding) (a y : string) :
  mode <> url.encodeQueryComponent ->
  url.unescape a mode = Ok y -> y = decode a.
Proof.
  intros Hm H. pose proof (unescape_decode_app mode a y "" Hm H) as Hd.
  by rewrite !append_nil_r in Hd.
Qed.

Lemma Index_Some_le (s sub : string) (n : nat) :
  strings.Index s sub = Some n -> (n <= String.length s)%nat.
Proof.
  revert n. induction s as [|c s IH]; intros n H.
  - change (strings.Index "" sub)
      with (if String.prefix sub "" then Some 0%nat else None) in H.
    destruct (String.prefix sub ""); simplify_eq/=; lia.
  - change (strings.Index (String c s) sub)
      with (if String.prefix sub (String c s) then Some 0%nat
            else S <$> strings.Index s sub) in H.
    destruct (String.prefix sub (String c s)); [simplify_eq/=; lia |].
    destruct (strings.Index s sub) as [m|]; simplify_eq/=.
    specialize (IH m eq_refl). lia.
Qed.

(** What [parseHost] makes of an escaped host is that host. *)
Lemma parseHost_escape (hp h : string) :
  url.parseHost (url.escape hp url.encodeHost) = Ok h -> h = hp.
Proof.
  set (e := url.escape hp url.encodeHost).
  assert (decode e = hp) as He by (by apply decode_escape).
  assert (url.unescape e url.encodeHost = Ok h -> h = hp) as Hplain.
  { intros H%unescape_decode; [congruence | done]. }
  unfold url.parseHost. fold e.
  destruct (strings.HasPrefix e "[").
  - destruct (strings.LastIndex e "]") as [i|]; [|done].
    destruct (negb _); [done |].
    destruct (strings.Index (slice_to i e) "%25") as [zone|] eqn:Hz; [|done].
    unfold mbind, result_bind.
    destruct (url.unescape (slice_to zone e) _) as [h1|] eqn:H1; [|done].
    destruct (url.unescape (slice_to (i - zone) _) _) as [h2|] eqn:H2; [|done].
    destruct (url.unescape (slice_from i e) _) as [h3|] eqn:H3; [|done].
    intros [= <-]. rewrite <- He.
    assert (zone <= i)%nat as Hle.
    { apply Index_Some_le in Hz. pose proof (slice_to_length i e). lia. }
    assert (e = slice_to zone e
                +:+ slice_to (i - zone) (slice_from zone e) +:+ slice_from i e) as ->.
    { rewrite <- (slice_to_from zone e) at 1. f_equal.
      rewrite <- (slice_to_from (i - zone) (slice_from zone e)) at 1. f_equal.
      rewrite slice_from_from. f_equal. lia. }
    rewrite (unescape_decode_app url.encodeHost _ _ _ ltac:(done) H1).
    rewrite (unescape_decode_app url.encodeZone _ _ _ ltac:(done) H2).
    by rewrite <- (unescape_decode url.encodeHost _ _ ltac:(done) H3).
  - destruct (strings.LastIndex e ":") as [i|]; [|done].
    by destruct (negb _).
Qed.

End EscapeFacts.

(** ** The address normaliser *)

Section Normaliser.

Lemma EscapedPath_empty (u : url.URL) : url.Path u = "" -> url.EscapedPath u = "".
Proof.
  intros HP. unfold url.EscapedPath. rewrite HP. simpl.
  destruct (negb _ && _); [|done].
  destruct (url.unescape (url.RawPath u) url.encodePath) as [p|] eqn:Hp; [|done].
  destruct (String.eqb_spec p "") as [->|]; [|done].
  by apply unescape_eq_nil in Hp.
Qed.

Lemma String_endpoint (u : url.URL) :
  url.Scheme u <> "" -> url.Opaque u = "" -> url.Host u <> "" -> url.Path u = "" ->
  url.String u = url.Scheme u +:+ "://" +:+ authority_of u +:+ tail_of u.
Proof.
  intros Hs Ho Hh Hp. unfold url.String, authority_of, tail_of.
  rewrite (EscapedPath_empty u Hp), Ho, Hp.
  rewrite (eqb_nil_false _ Hs), (eqb_nil_false _ Hh).
  destruct (url.Scheme u) as [|c sch]; [done |].
  simpl.
  destruct (url.User u), (_ || _), (negb (String.eqb (url.Fragment u) "")); simpl;
    repeat rewrite ?append_assoc, ?append_nil_r; simpl; try done.
Qed.

Lemma prefix_app (s r : string) : String.prefix s (s +:+ r) = true.
Proof.
  induction s as [|c s IH]; [by destruct r |].
  simpl. by destruct (ascii_dec c c).
Qed.

Lemma strip_scheme_http (r : string) : strip_scheme ("http://" +:+ r) = Some r.
Proof.
  unfold strip_scheme, strings.HasPrefix. by rewrite prefix_app.
Qed.

Lemma strip_scheme_https (r : string) : strip_scheme ("https://" +:+ r) = Some r.
Proof.
  unfold strip_scheme, strings.HasPrefix. rewrite prefix_app.
  by destruct r.
Qed.

Lemma LastIndex_cons (b : ascii) (s sub : string) :
  strings.LastIndex (String b s) sub =
  match strings.LastIndex s sub with
  | Some i => Some (S i)
  | None => if String.prefix sub (String b s) then Some 0%nat else None
  end.
Proof. reflexivity. Qed.

Lemma LastIndex_app_byte (c : ascii) (s t : string) :
  all_bytes (is_not c) t = true ->
  strings.LastIndex (s +:+ String c t) (String c "") = Some (String.length s).
Proof.
  intros Ht. induction s as [|b s IH].
  - simpl String.append. rewrite LastIndex_cons, (LastIndex_byte_None _ _ Ht).
    by rewrite prefix_byte, Ascii.eqb_refl.
  - simpl String.append. by rewrite LastIndex_cons, IH.
Qed.

Lemma authority_hostport_user (ui host : string) :
  all_bytes (is_not "@") host = true ->
  authority_hostport ((ui +:+ "@") +:+ host) = host.
Proof.
  intros Hh. unfold authority_hostport.
  rewrite append_assoc. change ("@" +:+ host) with (String "@" host).
  rewrite (LastIndex_app_byte _ _ _ Hh).
  change (String "@" host) with ("@" +:+ host). rewrite <- append_assoc.
  replace (String.length ui + 1)%nat with (String.length (ui +:+ "@"))
    by (rewrite append_length; simpl; lia).
  apply slice_from_app_length.
Qed.

Lemma authority_hostport_plain (host : string) :
  all_bytes (is_not "@") host = true -> authority_hostport host = host.
Proof. intros Hh. unfold authority_hostport. by rewrite (LastIndex_byte_None _ _ Hh). Qed.

Lemma span_authority_app (a rest : string) :
  all_bytes (fun c => negb (is_delim c)) a = true ->
  match rest with EmptyString => True | String c _ => is_delim c = true end ->
  span_authority (a +:+ rest) = (a, rest).
Proof.
  intros Ha Hr. induction a as [|c a IH].
  - simpl. destruct rest as [|c r]; [done |]. simpl. by rewrite Hr.
  - simpl in Ha. apply andb_true_iff in Ha as [Hc Ha]. simpl.
    apply negb_true_iff in Hc. rewrite Hc. by rewrite (IH Ha).
Qed.

Lemma tail_of_delim (u : url.URL) :
  match tail_of u with
  | EmptyString => True
  | String c _ => c = "?"%char \/ c = "#"%char
  end.
Proof.
  unfold tail_of. destruct (_ || _); simpl; [by left |].
  destruct (negb _); simpl; [by right | done].
Qed.

Lemma escape_no_delim (s : string) (mode : url.encoding) :
  mode = url.encodeHost \/ mode = url.encodeUserPassword ->
  all_bytes (fun c => negb (is_delim c || Ascii.eqb c "@")) (url.escape s mode) = true.
Proof.
  intros Hm. apply (escape_avoids (fun c => is_delim c || Ascii.eqb c "@")); try done.
  - intros c Hc. unfold is_delim, byte_of in Hc. simpl in Hc.
    repeat (apply orb_true_iff in Hc as [Hc|Hc]); try discriminate;
      apply Ascii.eqb_eq in Hc as ->; destruct Hm as [-> | ->]; reflexivity.
  - intros c Hc. simpl in Hc.
    repeat (destruct Hc as [<-|Hc]; [reflexivity |]). done.
Qed.

Lemma Userinfo_String_no_delim (ui : url.Userinfo) :
  all_bytes (fun c => negb (is_delim c))
            (url.Userinfo_String (Some ui) +:+ "@") = true.
Proof.
  assert (forall s, all_bytes (fun c => negb (is_delim c))
                      (url.escape s url.encodeUserPassword) = true) as Hesc.
  { intros s. eapply all_bytes_impl; [|apply (escape_no_delim s); by right].
    intros c. simpl. by intros [? ?]%negb_true_iff%orb_false_iff; apply negb_true_iff. }
  simpl. destruct (url.passwordSet ui).
  - rewrite !all_bytes_app, Hesc. simpl. by rewrite Hesc.
  - by rewrite !all_bytes_app, Hesc.
Qed.

Lemma authority_of_shape (u : url.URL) :
  url.Host u <> "" ->
  all_bytes (fun c => negb (is_delim c)) (authority_of u) = true
  /\ authority_hostport (authority_of u) <> "".
Proof.
  intros Hh.
  pose proof (escape_no_delim (url.Host u) url.encodeHost (or_introl eq_refl)) as He.
  assert (all_bytes (fun c => negb (is_delim c)) (url.escape (url.Host u) url.encodeHost) = true
          /\ all_bytes (is_not "@") (url.escape (url.Host u) url.encodeHost) = true) as [H1 H2].
  { split; (eapply all_bytes_impl; [|exact He]); intros c; simpl;
      intros [? ?]%negb_true_iff%orb_false_iff; [by apply negb_true_iff|].
    unfold is_not. by apply negb_true_iff. }
  assert (url.escape (url.Host u) url.encodeHost <> "") as Hne.
  { intros ?%escape_eq_nil. done. }
  unfold authority_of. destruct (url.User u) as [ui|].
  - split.
    + by rewrite all_bytes_app, Userinfo_String_no_delim, H1.
    + by rewrite authority_hostport_user.
  - simpl. split; [done |]. by rewrite authority_hostport_plain.
Qed.

(** The URL that the scheme branch of [buildAddr] prints: it passed the
    three checks. *)
Lemma endpoint_of_url (u : url.URL) :
  (url.Scheme u = "http" \/ url.Scheme u = "https") ->
  url.Opaque u = "" -> url.Host u <> "" -> url.Path u = "" ->
  endpoint_has_no_path (url.String u) = true.
Proof.
  intros Hs Ho Hh Hp.
  rewrite String_endpoint; [| by destruct Hs as [-> | ->] | done..].
  destruct (authority_of_shape u Hh) as [Hauth Hhost].
  pose proof (tail_of_delim u) as Htail.
  assert (forall r, strip_scheme (url.Scheme u +:+ "://" +:+ r) = Some r) as Hstrip.
  { intros r. destruct Hs as [-> | ->];
      [apply strip_scheme_http | apply strip_scheme_https]. }
  unfold endpoint_has_no_path. rewrite Hstrip.
  rewrite span_authority_app; [| done |].
  - rewrite (eqb_nil_false _ Hhost). simpl.
    destruct (tail_of u) as [|c r]; [done |].
    by destruct Htail as [-> | ->].
  - destruct (tail_of u) as [|c r]; [done |].
    by destruct Htail as [-> | ->].
Qed.

Lemma Parse_Host_Opaque (s : string) (u : url.URL) :
  url.Parse s = Ok u -> url.Host u <> "" -> url.Opaque u = "".
Proof.
  unfold url.Parse, url.parse. intros H Hh.
  repeat (case_match; simplify_eq/=; try done); unfold mbind, result_bind in *;
    repeat (case_match; simplify_eq/=; try done).
Qed.

Lemma JoinHostPort_nonempty (host port : string) : net.JoinHostPort host port <> "".
Proof.
  unfold net.JoinHostPort. destruct (strings.Contains host ":"); [done |].
  intros [_ H]%append_eq_nil. done.
Qed.

Lemma String_http_host (hp : string) :
  hp <> "" ->
  url.String (url.mkURL "http" "" None hp "" "" false "" "")
  = "http://" +:+ url.escape hp url.encodeHost.
Proof.
  intros Hhp. rewrite String_endpoint; try done.
  unfold authority_of, tail_of. simpl. by rewrite append_nil_r.
Qed.

(** Without a scheme separator the call goes on with the URL that
    [buildHostPort] makes: http, and the escaped host and port. *)
Lemma buildAddr_fuel_hostport (s : string) :
  strings.Contains s "://" = false ->
  exists hp, hp <> "" /\
    forall n, buildAddr_fuel (S n) s
              = buildAddr_fuel n ("http://" +:+ url.escape hp url.encodeHost).
Proof.
  intros Hc.
  exists (let '(host, port) :=
            match net.SplitHostPort s with
            | Ok (host, port) => (host, port)
            | Err _ => (s, keylightPort)
            end in net.JoinHostPort host port).
  split.
  - destruct (net.SplitHostPort s) as [[h p]|]; apply JoinHostPort_nonempty.
  - intros n. simpl. rewrite Hc. simpl. unfold buildHostPort_fuel.
    destruct (net.SplitHostPort s) as [[h p]|];
      by rewrite String_http_host by apply JoinHostPort_nonempty.
Qed.

Lemma buildAddr_fuel_scheme (s : string) (n : nat) :
  strings.Contains s "://" = true ->
  buildAddr_fuel (S n) s = buildAddr_fuel 1 s.
Proof. intros Hc. simpl. by rewrite Hc. Qed.

Lemma Contains_http (r : string) : strings.Contains ("http://" +:+ r) "://" = true.
Proof.
  unfold strings.Contains. apply bool_decide_eq_true.
  exists 4%nat. destruct r; reflexivity.
Qed.

(** Two levels of calls are all a run takes. *)
Lemma buildAddr_fuel_enough (s : string) (n : nat) :
  buildAddr_fuel (2 + n) s = buildAddr_fuel 2 s /\ is_Some (buildAddr_fuel 2 s).
Proof.
  assert (forall s, strings.Contains s "://" = true -> is_Some (buildAddr_fuel 1 s)) as Hsome.
  { intros s' Hc. simpl. rewrite Hc. simpl. repeat case_match; eauto. }
  change (2 + n)%nat with (S (S n)).
  destruct (strings.Contains s "://") eqn:Hc.
  - rewrite (buildAddr_fuel_scheme s (S n)), (buildAddr_fuel_scheme s 1) by done.
    split; [done | by apply Hsome].
  - destruct (buildAddr_fuel_hostport s Hc) as (hp & _ & Hstep).
    rewrite !Hstep.
    rewrite buildAddr_fuel_scheme by apply Contains_http.
    split; [done |]. apply Hsome, Contains_http.
Qed.

Lemma buildAddr_fuel_1_Ok (s out : string) :
  buildAddr_fuel 1 s = Some (Ok out) ->
  exists u, (url.Scheme u = "http" \/ url.Scheme u = "https")
    /\ url.Opaque u = "" /\ url.Host u <> "" /\ url.Path u = ""
    /\ out = url.String u.
Proof.
  simpl. destruct (strings.Contains s "://"); simpl.
  2:{ unfold buildHostPort_fuel. by destruct (net.SplitHostPort s) as [[? ?]|]. }
  destruct (url.Parse s) as [u|] eqn:HP; [|done].
  set (u' := if String.eqb (url.Path u) "/" then url.set_Path u "" else u).
  assert (url.Scheme u' = url.Scheme u /\ url.Opaque u' = url.Opaque u
          /\ url.Host u' = url.Host u) as (Hs & Ho & Hh).
  { unfold u'. by destruct (String.eqb _ "/"). }
  destruct (String.eqb_spec (url.Scheme u') "http") as [Hhttp|];
    [| destruct (String.eqb_spec (url.Scheme u') "https") as [Hhttps|]; [|done] ];
    simpl;
    (destruct (String.eqb_spec (url.Host u') "") as [|Hhost]; [done |]);
    (destruct (String.eqb_spec (url.Path u') "") as [Hpath|]; [|done]);
    simpl; intros [= <-]; exists u';
    (split_and!; [auto | | done..]);
    rewrite Ho; apply (Parse_Host_Opaque s u HP); by rewrite <- Hh.
Qed.


(** C1, as the code has it: for every input that [buildAddr] accepts, the
    returned endpoint string has scheme http or https, a host part that is
    not empty (a host name, a colon and a port, or both) and no path.  The
    host name alone may be empty, and a query or a fragment of the input
    stays. *)
Theorem buildAddr_endpoint_has_no_path (s out : string) :
  buildAddr s = Ok out -> endpoint_has_no_path out = true.
Proof.
  unfold buildAddr. intros H.
  assert (exists s', buildAddr_fuel 1 s' = Some (Ok out)) as [s' Hs'].
  { destruct (buildAddr_fuel 2 s) as [r|] eqn:Hr; [subst r | done].
    destruct (strings.Contains s "://") eqn:Hc.
    - exists s. by rewrite <- (buildAddr_fuel_scheme s 1).
    - destruct (buildAddr_fuel_hostport s Hc) as (hp & _ & Hstep).
      rewrite Hstep in Hr. eauto. }
  apply buildAddr_fuel_1_Ok in Hs' as (u & Hsch & Ho & Hh & Hp & ->).
  by apply endpoint_of_url.
Qed.

Lemma buildAddr_endpoint_has_no_path_witness :
  endpoint_has_no_path "http://foo?x=1" = true.
Proof.
  apply (buildAddr_endpoint_has_no_path "http://foo?x=1"). reflexivity.
Defined.

Example endpoint_is_bare_host_port :
  endpoint_is_bare "http://foo:9123" = true
  /\ endpoint_is_bare "https://user@foo" = true
  /\ endpoint_is_bare "http://[fe80::1]:9123" = true
  /\ endpoint_is_bare "http://foo/bar" = false
  /\ endpoint_is_bare "http://user@:80" = false
  /\ endpoint_has_no_path "http://user@:80" = true
  /\ endpoint_has_no_path "http://foo/bar" = false
  /\ endpoint_has_no_path "http://?x=1" = false
  /\ endpoint_has_no_path "http://user@" = false
  /\ endpoint_has_no_path "sftp://foo" = false.
Proof. repeat split; reflexivity. Qed.

(** C1, as it is stated, fails: a URL with a query is accepted, and the
    query is part of the endpoint returned. *)
Lemma buildAddr_keeps_query :
  buildAddr "http://foo?x=1" = Ok "http://foo?x=1"
  /\ endpoint_is_bare "http://foo?x=1" = false.
Proof. split; reflexivity. Qed.

(** It fails a second way: a target that is a colon and a port, with or
    without a scheme, is accepted, and the endpoint returned has a port
    and no host name. *)
Lemma buildAddr_keeps_empty_host :
  buildAddr ":80" = Ok "http://:80"
  /\ buildAddr "https://:80" = Ok "https://:80"
  /\ hostport_name (authority_hostport ":80") = ""
  /\ endpoint_is_bare "http://:80" = false
  /\ endpoint_is_bare "https://:80" = false.
Proof. repeat split; reflexivity. Qed.

(** C5: each of "sftp://foo", "http://", "foo:bar" and "http://foo/bar" is
    an error; "foo:bar" is the URL http://foo:bar, whose port the parser
    refuses. *)
Theorem buildAddr_rejects :
  buildAddr "sftp://foo" = Err (errorf_q "invalid device URL: " "sftp://foo" "")
  /\ buildAddr "http://" = Err (errorf_q "invalid device URL: " "http:" "")
  /\ buildAddr "foo:bar"
     = Err (url_Error "parse" "http://foo:bar"
                      (errorf_q "invalid port " ":bar" " after host"))
  /\ buildAddr "http://foo/bar"
     = Err (errorf_q "invalid device URL: " "http://foo/bar" "").
Proof. repeat split; reflexivity. Qed.

(** C6: "foo" gets the default port, "foo:9123" keeps its port, the bare
    trailing slash of "http://foo:9123/" is dropped, and "http://foo:9123"
    is unchanged. *)
Theorem buildAddr_accepts :
  buildAddr "foo" = Ok ("http://foo:" +:+ keylightPort)
  /\ keylightPort = "9123"
  /\ buildAddr "foo:9123" = Ok "http://foo:9123"
  /\ buildAddr "http://foo:9123/" = Ok "http://foo:9123"
  /\ buildAddr "http://foo:9123" = Ok "http://foo:9123".
Proof. repeat split; reflexivity. Qed.

Lemma getscheme_http (r : string) :
  url.getscheme ("http://" +:+ r) = Ok ("http", "//" +:+ r).
Proof. reflexivity. Qed.

Lemma Parse_http_escaped (hp : string) :
  let e := url.escape hp url.encodeHost in
  url.Parse ("http://" +:+ e)
  = match url.parseHost e with
    | Ok h => Ok (url.mkURL "http" "" None h "" "" false "" "")
    | Err err => Err (url_Error "parse" ("http://" +:+ e) err)
    end.
Proof.
  intros e.
  assert (forall c, url.shouldEscape c url.encodeHost
                    && negb (byte_of ("%" :: "+" :: hexchars)%char c) = true ->
                    all_bytes (is_not c) e = true) as Hno.
  { intros c Hc. by apply escape_no_byte. }
  pose proof (Hno "#"%char eq_refl) as Hhash.
  pose proof (Hno "?"%char eq_refl) as Hq.
  pose proof (Hno "/"%char eq_refl) as Hslash.
  pose proof (Hno "@"%char eq_refl) as Hat.
  pose proof (escape_no_ctl url.encodeHost hp) as Hctl. fold e in Hctl.
  unfold url.Parse.
  rewrite split_byte_None by (by rewrite all_bytes_app, Hhash).
  simpl String.eqb.
  unfold url.parse.
  assert (url.stringContainsCTLByte ("http://" +:+ e) = false) as ->.
  { unfold url.stringContainsCTLByte. apply negb_false_iff.
    by rewrite all_bytes_app, Hctl. }
  rewrite getscheme_http.
  clearbody e.
  assert (strings.CountByte ("//" +:+ e) "?" = 0%nat) as HC.
  { apply CountByte_None. by rewrite all_bytes_app, Hq. }
  assert (url.split ("//" +:+ e) "?" true = ("//" +:+ e, "")) as HS.
  { apply split_byte_None. by rewrite all_bytes_app, Hq. }
  assert (url.split e "/" false = (e, "")) as HS2 by (by apply split_byte_None).
  assert (url.parseAuthority e = host ← url.parseHost e; Ok (None, host)) as HA.
  { unfold url.parseAuthority. by rewrite (LastIndex_byte_None _ _ Hat). }
  unfold mbind at 1, result_bind at 1. cbv beta iota zeta.
  change (String.eqb ("http://" +:+ e) "") with false.
  change (String.eqb ("http://" +:+ e) "*") with false.
  change (strings.ToLower "http") with "http".
  rewrite HC. change (bool_decide (0%nat = 1%nat)) with false.
  rewrite (andb_false_r (strings.HasSuffix _ _)), HS.
  cbv beta iota zeta.
  change (strings.HasPrefix ("//" +:+ e) "/") with true.
  assert (strings.HasPrefix ("//" +:+ e) "//" = true) as -> by apply (prefix_app "//").
  change (slice_from 2 ("//" +:+ e)) with e.
  cbn [negb andb orb String.eqb Ascii.eqb Bool.eqb].
  rewrite HS2, HA.
  unfold mbind, result_bind.
  destruct (url.parseHost e) as [h|]; [|done].
  reflexivity.
Qed.

(** C7: for every target without a scheme separator that [buildAddr]
    accepts (a well-formed host or host:port), normalising the returned
    endpoint gives that endpoint again. *)
Theorem buildAddr_idempotent (s out : string) :
  strings.Contains s "://" = false ->
  buildAddr s = Ok out -> buildAddr out = Ok out.
Proof.
  intros Hc. unfold buildAddr.
  destruct (buildAddr_fuel_hostport s Hc) as (hp & Hhp & Hstep).
  rewrite Hstep.
  set (s' := "http://" +:+ url.escape hp url.encodeHost).
  assert (forall n, buildAddr_fuel (S n) s'
            = Some (match url.parseHost (url.escape hp url.encodeHost) with
                    | Ok h => Ok s'
                    | Err err => Err (url_Error "parse" s' err)
                    end)) as Hs'.
  { intros n. rewrite buildAddr_fuel_scheme by apply Contains_http.
    simpl. unfold s'. rewrite Contains_http. simpl negb. cbv iota.
    rewrite Parse_http_escaped.
    destruct (url.parseHost _) as [h|] eqn:Hh; [|done].
    apply parseHost_escape in Hh as ->.
    cbn [url.Path url.Scheme url.Host String.eqb Ascii.eqb Bool.eqb url.set_Path negb andb orb].
    rewrite (eqb_nil_false _ Hhp). cbn [negb andb orb].
    by rewrite String_http_host. }
  rewrite Hs'.
  destruct (url.parseHost _) as [h|]; [|done].
  intros [= <-]. by rewrite Hs'.
Qed.

Lemma buildAddr_idempotent_witness :
  buildAddr "http://foo:9123" = Ok "http://foo:9123".
Proof. apply (buildAddr_idempotent "foo"); reflexivity. Defined.

End Normaliser.

(** ** The scrape translator *)

Section Scrape.
Variable quote : string -> string.

Lemma funcs_NewHandler_entries :
  map_to_list (funcs NewHandler_mm) ≡ₚ entries declared.
Proof.
  unfold funcs, NewHandler_mm, ConstGauge. simpl.
  rewrite !map_imap_insert, map_imap_empty.
  rewrite !map_to_list_insert, map_to_list_empty.
  - symmetry. apply (Permutation_rev (entries declared)).
  - done.
  - by simplify_map_eq.
  - by simplify_map_eq.
  - by simplify_map_eq.
Qed.

Lemma iteration_order_entries (order : list (string * collector)) :
  iteration_order NewHandler_mm order ->
  exists names, order = entries names /\ names ≡ₚ declared.
Proof.
  unfold iteration_order. rewrite funcs_NewHandler_entries. intros H.
  apply Permutation_map_inv in H as (names & -> & Hn).
  exists names. split; [done | by symmetry].
Qed.

(** The scrape function visits the entries one after the other. *)
Lemma scrapeDevice_cons (d : Data) (name : string) (c : collector)
    (rest : list (string * collector)) (st : list sample) :
  scrapeDevice quote d ((name, c) :: rest) st
  = match scrapeDevice quote d [(name, c)] st with
    | (Return _, st') => scrapeDevice quote d rest st'
    | (Panic v, st') => (Panic v, st')
    end.
Proof.
  unfold scrapeDevice. simpl. unfold mbind, M_bind, mret, M_ret.
  repeat case_match; simplify_eq; done.
Qed.

Lemma for_range_sends (body : nat -> Light -> M unit) (F : nat -> Light -> sample) :
  (forall i l st, body i l st = (Return tt, st ++ [F i l])) ->
  forall lights i st,
    for_range i lights body st
    = (Return tt, st ++ imap (fun j => F (i + j)%nat) lights).
Proof.
  intros Hbody. induction lights as [|l lights IH]; intros i st.
  - simpl. by rewrite app_nil_r.
  - simpl. unfold mbind, M_bind. rewrite Hbody, IH.
    rewrite <- app_assoc. simpl. rewrite Nat.add_0_r.
    do 3 f_equal. apply imap_ext. intros j x _. simpl. f_equal. lia.
Qed.

Ltac decide_names :=
  repeat match goal with
    | |- context [bool_decide (?a = ?b)] =>
        first [ rewrite (bool_decide_eq_true_2 (a = b)) by reflexivity
              | rewrite (bool_decide_eq_false_2 (a = b)) by discriminate ]
    end.

Lemma scrapeDevice_declared (d : Data) (name : string) (st : list sample) :
  is_declared name = true ->
  scrapeDevice quote d [(name, emit name)] st = (Return None, st ++ emitted d name).
Proof.
  unfold is_declared, declared. intros H%bool_decide_eq_true.
  unfold scrapeDevice, emitted, light_value. simpl.
  unfold mbind, M_bind, mret, M_ret.
  set_unfold in H. destruct H as [-> | [-> | [-> | [-> | []]]]];
    decide_names; simpl; [done | ..];
    by erewrite for_range_sends by done.
Qed.

Lemma scrapeDevice_undeclared (d : Data) (name : string) (c : collector)
    (st : list sample) :
  is_declared name = false ->
  scrapeDevice quote d [(name, c)] st
  = (Panic ("keylight_exporter: unhandled metric " +:+ quote name), st).
Proof.
  unfold is_declared, declared. intros H%bool_decide_eq_false.
  assert (name <> klInfo /\ name <> klLightOn /\ name <> klLightBrightnessPercent
          /\ name <> klLightTemperatureKelvin) as (H1 & H2 & H3 & H4).
  { set_unfold in H. naive_solver. }
  unfold scrapeDevice. simpl. unfold mbind, M_bind.
  by rewrite !bool_decide_eq_false_2 by done.
Qed.

(** What a pass over a sequence of gauge names does: every declared name
    sends its samples, and the first name that is not declared panics. *)
Lemma scrapeDevice_entries (d : Data) (names : list string) (st : list sample) :
  match find (fun name => negb (is_declared name)) names with
  | Some name =>
      exists st',
        scrapeDevice quote d (entries names) st
        = (Panic ("keylight_exporter: unhandled metric " +:+ quote name), st')
  | None =>
      scrapeDevice quote d (entries names) st
      = (Return None, st ++ (names ≫= emitted d))
  end.
Proof.
  revert st. induction names as [|name names IH]; intros st.
  - simpl. by rewrite app_nil_r.
  - unfold entries. simpl map. rewrite scrapeDevice_cons. simpl find.
    destruct (is_declared name) eqn:Hd; simpl negb; cbv iota.
    + rewrite scrapeDevice_declared by done. fold (entries names).
      specialize (IH (st ++ emitted d name)).
      destruct (find _ names); [done |].
      rewrite IH. by rewrite <- app_assoc.
    + rewrite scrapeDevice_undeclared by done. eauto.
Qed.

Lemma emitted_names (d : Data) (name : string) :
  Forall (fun x => sample_name x = name) (emitted d name).
Proof.
  unfold emitted. case_bool_decide as Hn.
  - subst name. by repeat constructor.
  - apply Forall_lookup. intros i x Hx.
    apply list_lookup_imap_Some in Hx as (l & _ & ->). done.
Qed.

Lemma filter_emitted_same (d : Data) (g : string) :
  filter (fun x => sample_name x = g) (emitted d g) = emitted d g.
Proof.
  pose proof (emitted_names d g) as H.
  induction H as [|x l Hx _ IH]; [done |].
  by rewrite filter_cons_True, IH.
Qed.

Lemma filter_emitted_other (d : Data) (g name : string) :
  name <> g -> filter (fun x => sample_name x = g) (emitted d name) = [].
Proof.
  intros Hn. pose proof (emitted_names d name) as H.
  induction H as [|x l Hx _ IH]; [done |].
  rewrite filter_cons_False; [done | congruence].
Qed.

(** The samples of one gauge, among those of a pass over distinct names. *)
Lemma filter_emitted (d : Data) (g : string) (names : list string) :
  NoDup names -> g ∈ names ->
  filter (fun x => sample_name x = g) (names ≫= emitted d) = emitted d g.
Proof.
  induction names as [|name names IH]; intros Hnd Hg; [by apply elem_of_nil in Hg |].
  apply NoDup_cons in Hnd as [Hname Hnd].
  assert (g ∉ names -> filter (fun x => sample_name x = g) (names ≫= emitted d) = [])
    as Hnone.
  { clear. intros Hg. induction names as [|n names IH]; [done |].
    rewrite bind_cons, filter_app. apply not_elem_of_cons in Hg as [Hn Hg].
    rewrite filter_emitted_other by done. by apply IH. }
  rewrite bind_cons, filter_app.
  destruct (decide (name = g)) as [->|Hne].
  - by rewrite filter_emitted_same, Hnone, app_nil_r.
  - rewrite filter_emitted_other by done. apply IH; [done |].
    apply elem_of_cons in Hg as [|]; [congruence | done].
Qed.

(** The samples that a pass over the gauges of [NewHandler] sends, gauge by
    gauge. *)
Lemma scrapeDevice_sent (d : Data) (order : list (string * collector)) :
  iteration_order NewHandler_mm order ->
  exists sent,
    scrapeDevice quote d order [] = (Return None, sent)
    /\ forall g, g ∈ declared ->
         filter (fun x => sample_name x = g) sent = emitted d g.
Proof.
  intros (names & -> & Hnames)%iteration_order_entries.
  pose proof (scrapeDevice_entries d names []) as Hrun.
  assert (find (fun name => negb (is_declared name)) names = None) as Hfind.
  { destruct (find _ names) as [x|] eqn:Hx; [|done].
    apply find_some in Hx as [Hin Hnd%negb_true_iff].
    apply list_elem_of_In in Hin. rewrite Hnames in Hin.
    unfold is_declared in Hnd. by apply bool_decide_eq_false in Hnd. }
  rewrite Hfind in Hrun. eexists. split; [exact Hrun |].
  intros g Hg. simpl. apply filter_emitted.
  - rewrite Hnames. unfold declared. compute_done.
  - by rewrite Hnames.
Qed.

(** C3: a pass over the gauges of [NewHandler], in any iteration order,
    sends as many samples of each of the three gauges of a light as the
    snapshot has lights (none for no lights), and one sample of the
    device-info gauge: the value 1.0 with the firmware version, the display
    name and the serial number as labels. *)
Theorem scrapeDevice_counts (d : Data) (order : list (string * collector)) :
  iteration_order NewHandler_mm order ->
  exists sent,
    scrapeDevice quote d order [] = (Return None, sent)
    /\ length (filter (fun x => sample_name x = klLightOn) sent)
       = length (Lights d)
    /\ length (filter (fun x => sample_name x = klLightBrightnessPercent) sent)
       = length (Lights d)
    /\ length (filter (fun x => sample_name x = klLightTemperatureKelvin) sent)
       = length (Lights d)
    /\ filter (fun x => sample_name x = klInfo) sent
       = [mkSample klInfo (float64_of_int 1)
            [FirmwareVersion (Device_of d); DisplayName (Device_of d);
             SerialNumber (Device_of d)]].
Proof.
  intros Ho. destruct (scrapeDevice_sent d order Ho) as (sent & Hrun & Hsent).
  exists sent. split; [done |].
  rewrite !Hsent by (unfold declared; set_solver).
  unfold emitted. decide_names. by rewrite !length_imap.
Qed.

(** C4: the light at position [i] gives, in each of the three gauges of a
    light, the sample at position [i]; its labels are light<i> and the
    serial number of the device, and its value is 1.0 or 0.0 for a light
    that is on or off, the brightness as a number, and the temperature as a
    number. *)
Theorem scrapeDevice_light (d : Data) (order : list (string * collector))
    (i : nat) (l : Light) :
  iteration_order NewHandler_mm order ->
  Lights d !! i = Some l ->
  exists sent,
    scrapeDevice quote d order [] = (Return None, sent)
    /\ filter (fun x => sample_name x = klLightOn) sent !! i
       = Some (mkSample klLightOn
                 (if On l then float64_of_int 1 else float64_of_int 0)
                 ["light" +:+ itoa i; SerialNumber (Device_of d)])
    /\ filter (fun x => sample_name x = klLightBrightnessPercent) sent !! i
       = Some (mkSample klLightBrightnessPercent (float64_of_int (Brightness l))
                 ["light" +:+ itoa i; SerialNumber (Device_of d)])
    /\ filter (fun x => sample_name x = klLightTemperatureKelvin) sent !! i
       = Some (mkSample klLightTemperatureKelvin (float64_of_int (Temperature l))
                 ["light" +:+ itoa i; SerialNumber (Device_of d)]).
Proof.
  intros Ho Hl. destruct (scrapeDevice_sent d order Ho) as (sent & Hrun & Hsent).
  exists sent. split; [done |].
  rewrite !Hsent by (unfold declared; set_solver).
  unfold emitted, light_value. decide_names.
  rewrite !list_lookup_imap, Hl. simpl. by destruct (On l).
Qed.

(** C10: a pass over gauge names stops with a panic at the first name that
    is not one of the four declared gauges, and does not panic when all the
    names are declared. *)
Theorem scrapeDevice_unhandled_metric (d : Data) (names : list string)
    (st : list sample) :
  match find (fun name => negb (is_declared name)) names with
  | Some name =>
      exists st',
        scrapeDevice quote d (entries names) st
        = (Panic ("keylight_exporter: unhandled metric " +:+ quote name), st')
  | None =>
      exists st', scrapeDevice quote d (entries names) st = (Return None, st')
  end.
Proof.
  pose proof (scrapeDevice_entries d names st) as H.
  destruct (find _ names); eauto.
Qed.

End Scrape.

Lemma scrapeDevice_counts_witness :
  exists sent,
    scrapeDevice (fun s => s) test_Data (map_to_list (funcs NewHandler_mm)) []
    = (Return None, sent)
    /\ length (filter (fun x => sample_name x = klLightOn) sent) = 2%nat
    /\ length (filter (fun x => sample_name x = klLightBrightnessPercent) sent) = 2%nat
    /\ length (filter (fun x => sample_name x = klLightTemperatureKelvin) sent) = 2%nat
    /\ filter (fun x => sample_name x = klInfo) sent
       = [mkSample klInfo (float64_of_int 1) ["1.0.0"; "test"; "1111"]].
Proof.
  apply (scrapeDevice_counts (fun s => s) test_Data).
  unfold iteration_order. reflexivity.
Defined.

Lemma scrapeDevice_light_witness :
  exists sent,
    scrapeDevice (fun s => s) test_Data (map_to_list (funcs NewHandler_mm)) []
    = (Return None, sent)
    /\ filter (fun x => sample_name x = klLightOn) sent !! 0%nat
       = Some (mkSample klLightOn (float64_of_int 1) ["light0"; "1111"])
    /\ filter (fun x => sample_name x = klLightBrightnessPercent) sent !! 0%nat
       = Some (mkSample klLightBrightnessPercent (float64_of_int 20)
                 ["light0"; "1111"])
    /\ filter (fun x => sample_name x = klLightTemperatureKelvin) sent !! 0%nat
       = Some (mkSample klLightTemperatureKelvin (float64_of_int 4200)
                 ["light0"; "1111"]).
Proof.
  apply (scrapeDevice_light (fun s => s) test_Data _ 0 (mkLight true 20 4200)).
  - unfold iteration_order. reflexivity.
  - reflexivity.
Defined.

(** ** Requests served at the same time *)

Section Server.
Variable quote : string -> string.
Variable encode : list sample -> string.

Local Abbreviation stage := (stage quote encode).
Local Abbreviation server_inv := (server_inv quote encode).
Local Abbreviation step := (step encode (ServeHTTP quote)).

Lemma ServeHTTP_cases (r : Request) :
  (exists resp, ServeHTTP quote r = Ret resp)
  \/ (exists addr, ServeHTTP quote r = CallFetch addr (after_fetch quote addr)).
Proof.
  unfold ServeHTTP. destruct (String.eqb _ ""); [eauto |].
  destruct (buildAddr _) as [addr|err]; [right | left]; eauto.
Qed.

Lemma stage_shared (h h' : handler) (g : goroutine) :
  stage h g -> ~ holds g -> stage h' g.
Proof.
  intros Hs Hh. destruct Hs; try (by constructor); exfalso; apply Hh; exact I.
Qed.

Lemma stage_locked_shared (h h' : handler) (g : goroutine) :
  stage h g -> mu h' = true -> mm h' = mm h -> stage h' g.
Proof.
  intros Hs Hmu Hmm. destruct Hs; try (by constructor).
  constructor; [done | by rewrite Hmm].
Qed.

Lemma stage_holds_mu (h : handler) (g : goroutine) :
  stage h g -> holds g -> mu h = true.
Proof.
  intros Hs Hh. destruct Hs; try done; unfold holds in Hh; simpl in Hh.
  - destruct (ServeHTTP_cases r) as [[resp Hr] | [addr Hr]]; by rewrite Hr in Hh.
Qed.

Lemma start_not_holds (r : Request) od :
  ~ holds (mkGoroutine od (ServeHTTP quote r)).
Proof.
  unfold holds. simpl.
  destruct (ServeHTTP_cases r) as [[resp ->] | [addr ->]]; tauto.
Qed.

Lemma server_init_inv : server_inv server_init.
Proof. split; simpl; [done | |]; intros *; by rewrite lookup_empty. Qed.

Lemma metrics_ServeHTTP_rendered (h : handler) (d : Data)
    (order : list (string * collector)) :
  consts (mm h) = consts NewHandler_mm ->
  onConstScrape (mm h) = Some (scrapeDevice quote d) ->
  iteration_order (mm h) order ->
  rendered quote encode d (metrics_ServeHTTP encode (mm h) order).
Proof.
  intros Hc Hs Ho.
  assert (iteration_order NewHandler_mm order) as Ho'.
  { unfold iteration_order, funcs in *. by rewrite <- Hc. }
  destruct (scrapeDevice_sent quote d order Ho') as (sent & Hrun & _).
  exists order, sent. split_and!; [done.. |].
  unfold metrics_ServeHTTP. by rewrite Hs, Hrun.
Qed.

(** What the stage of a goroutine says, read off its next action. *)
Lemma stage_code (h : handler) (od : option Data) (p : prog) :
  stage h (mkGoroutine od p) ->
  match p with
  | Ret resp => forall d, od = Some d -> rendered quote encode d resp
  | CallFetch addr k => od = None /\ k = after_fetch quote addr
  | Lock k => exists d, od = Some d /\ k = critical quote d
  | SetScrape scrape k =>
      exists d, od = Some d /\ mu h = true
        /\ SetScrape scrape k = critical quote d
  | ServeMetrics k =>
      exists d, od = Some d /\ mu h = true
        /\ onConstScrape (mm h) = Some (scrapeDevice quote d)
        /\ k = (fun resp => Unlock (Ret resp))
  | Unlock k =>
      exists d resp, od = Some d /\ mu h = true
        /\ rendered quote encode d resp /\ k = Ret resp
  end.
Proof.
  intros Hs. inversion Hs; subst; try unfold critical;
    try (by eauto 10); try (by intros ? [= <-]).
  destruct (ServeHTTP_cases r) as [[resp ->] | [addr ->]]; done.
Qed.

Lemma step_inv (s s' : server) : server_inv s -> step s s' -> server_inv s'.
Proof.
  intros [Hc Hst Hex] Hstep.
  assert (forall t g, pool s !! t = Some g -> holds g -> mu (shared s) = true)
    as Hmu.
  { intros t g Ht. apply stage_holds_mu. eauto. }
  destruct Hstep as [h gs t r Ht | h gs t od addr k res Ht | h gs t od k Ht Hfree
                    | h gs t od scrape k Ht | h gs t od k order Ht Ho
                    | h gs t od k Ht]; cbn [shared pool] in *;
    try (pose proof (stage_code _ _ _ (Hst _ _ Ht)) as Hg; simpl in Hg).
  - (* a request arrives *)
    split; simpl; [done | |].
    + intros t' g' [[<- <-] | [Hne Hg]]%lookup_insert_Some; [constructor | eauto].
    + intros t1 t2 g1 g2 [[<- <-] | [Hne1 Hg1]]%lookup_insert_Some
                         [[<- <-] | [Hne2 Hg2]]%lookup_insert_Some H1 H2;
        try done; try (by apply start_not_holds in H1);
        try (by apply start_not_holds in H2); eauto.
  - (* the fetch returns *)
    destruct Hg as [-> ->].
    assert (~ holds (mkGoroutine
                       match res with Ok d => Some d | Err _ => None end
                       (after_fetch quote addr res))) as Hnh.
    { destruct res; unfold holds; simpl; tauto. }
    split; simpl; [done | |].
    + intros t' g' [[<- <-] | [Hne Hg']]%lookup_insert_Some; [|eauto].
      destruct res; constructor.
    + intros t1 t2 g1 g2 [[<- <-] | [Hne1 Hg1]]%lookup_insert_Some
                         [[<- <-] | [Hne2 Hg2]]%lookup_insert_Some H1 H2;
        try done; eauto.
  - (* Lock *)
    destruct Hg as (d & -> & ->).
    split; simpl; [done | |].
    + intros t' g' [[<- <-] | [Hne Hg']]%lookup_insert_Some.
      * by constructor.
      * eapply stage_locked_shared; eauto.
    + intros t1 t2 g1 g2 [[<- <-] | [Hne1 Hg1]]%lookup_insert_Some
                         [[<- <-] | [Hne2 Hg2]]%lookup_insert_Some H1 H2;
        try done.
      * pose proof (Hmu _ _ Hg2 H2). congruence.
      * pose proof (Hmu _ _ Hg1 H1). congruence.
      * eauto.
  - (* OnConstScrape *)
    destruct Hg as (d & -> & Hd & [= -> ->]).
    split; simpl; [done | |].
    + intros t' g' [[<- <-] | [Hne Hg']]%lookup_insert_Some.
      * by constructor.
      * eapply stage_shared; [eauto |]. intros Hh. apply Hne.
        eapply Hex; eauto; exact I.
    + intros t1 t2 g1 g2 [[<- <-] | [Hne1 Hg1]]%lookup_insert_Some
                         [[<- <-] | [Hne2 Hg2]]%lookup_insert_Some H1 H2;
        try done.
      * eapply Hex; eauto; exact I.
      * eapply Hex; eauto; exact I.
      * eauto.
  - (* the metrics handler *)
    destruct Hg as (d & -> & Hd & Hs & ->).
    split; simpl; [done | |].
    + intros t' g' [[<- <-] | [Hne Hg']]%lookup_insert_Some; [|eauto].
      constructor; [done |]. by apply metrics_ServeHTTP_rendered.
    + intros t1 t2 g1 g2 [[<- <-] | [Hne1 Hg1]]%lookup_insert_Some
                         [[<- <-] | [Hne2 Hg2]]%lookup_insert_Some H1 H2;
        try done.
      * eapply Hex; eauto; exact I.
      * eapply Hex; eauto; exact I.
      * eauto.
  - (* Unlock *)
    destruct Hg as (d & resp & -> & Hd & Hr & ->).
    split; simpl; [done | |].
    + intros t' g' [[<- <-] | [Hne Hg']]%lookup_insert_Some.
      * by constructor.
      * eapply stage_shared; [eauto |]. intros Hh. apply Hne.
        eapply Hex; eauto; exact I.
    + intros t1 t2 g1 g2 [[<- <-] | [Hne1 Hg1]]%lookup_insert_Some
                         [[<- <-] | [Hne2 Hg2]]%lookup_insert_Some H1 H2;
        try done. eauto.
Qed.

Lemma reachable_inv (s : server) : reachable quote encode s -> server_inv s.
Proof.
  unfold reachable. intros H.
  eapply (rtc_ind_r (fun s => server_inv s)); [| | exact H].
  - apply server_init_inv.
  - intros s1 s2 _ Hstep Hinv. by eapply step_inv.
Qed.

(** C8: however the requests being served interleave, at most one of them
    is between its [Lock] and its [Unlock], and the response of a request
    that fetched the snapshot [d] is the encoding of the samples of one
    pass over [d] alone: every sample in it has the serial number of [d] as
    its serial label. *)
Theorem concurrent_bodies_not_mixed (s : server) :
  reachable quote encode s ->
  (forall t1 t2 g1 g2,
     pool s !! t1 = Some g1 -> pool s !! t2 = Some g2 ->
     holds g1 -> holds g2 -> t1 = t2)
  /\ (forall t d resp,
        pool s !! t = Some (mkGoroutine (Some d) (Unlock (Ret resp)))
        \/ pool s !! t = Some (mkGoroutine (Some d) (Ret resp)) ->
        exists order sent,
          iteration_order NewHandler_mm order
          /\ scrapeDevice quote d order [] = (Return None, sent)
          /\ resp = Respond 200 (encode sent)
          /\ Forall (fun x => last (sample_labels x)
                              = Some (SerialNumber (Device_of d))) sent).
Proof.
  intros [Hc Hst Hex]%reachable_inv. split; [exact Hex |].
  intros t d resp Ht.
  assert (rendered quote encode d resp) as Hr.
  { destruct Ht as [Ht | Ht]; apply Hst, stage_code in Ht; simpl in Ht.
    - destruct Ht as (d' & resp' & [= <-] & _ & Hr & [= <-]). done.
    - by apply Ht. }
  destruct Hr as (order & sent & Ho & Hrun & ->).
  exists order, sent. split_and!; try done.
  apply iteration_order_entries in Ho as (names & -> & Hn).
  pose proof (scrapeDevice_entries quote d names []) as Hrun'.
  rewrite Hrun in Hrun'.
  destruct (find _ names); [by destruct Hrun' |].
  injection Hrun' as ->. simpl.
  apply Forall_forall. intros x (name & Hx & _)%list_elem_of_bind.
  unfold emitted in Hx. case_bool_decide.
  - apply list_elem_of_singleton in Hx as ->. done.
  - apply list_elem_of_lookup in Hx as [i Hx].
    apply list_lookup_imap_Some in Hx as (l & _ & ->). done.
Qed.

End Server.

Lemma concurrent_bodies_not_mixed_witness :
  (forall t1 t2 g1 g2,
     pool test_server !! t1 = Some g1 -> pool test_server !! t2 = Some g2 ->
     holds g1 -> holds g2 -> t1 = t2)
  /\ (forall t d resp,
        pool test_server !! t = Some (mkGoroutine (Some d) (Unlock (Ret resp)))
        \/ pool test_server !! t = Some (mkGoroutine (Some d) (Ret resp)) ->
        exists order sent,
          iteration_order NewHandler_mm order
          /\ scrapeDevice quote_plain d order [] = (Return None, sent)
          /\ resp = Respond 200 (test_encode sent)
          /\ Forall (fun x => last (sample_labels x)
                              = Some (SerialNumber (Device_of d))) sent).
Proof.
  apply (concurrent_bodies_not_mixed quote_plain test_encode test_server).
  unfold reachable, test_server, server_init.
  eapply rtc_l; [apply (step_accept _ _ _ _ 0%nat test_Request); reflexivity |].
  eapply rtc_l.
  { apply (step_fetch _ _ _ _ 0%nat None "http://foo:9123"
             (after_fetch quote_plain "http://foo:9123") (Ok test_Data)).
    reflexivity. }
  eapply rtc_l.
  { apply (step_lock _ _ _ _ 0%nat (Some test_Data) (critical quote_plain test_Data));
      reflexivity. }
  eapply rtc_l.
  { apply (step_set_scrape _ _ _ _ 0%nat (Some test_Data)
             (scrapeDevice quote_plain test_Data)
             (ServeMetrics (fun resp => Unlock (Ret resp)))).
    reflexivity. }
  eapply rtc_l.
  { apply (step_serve_metrics _ _ _ _ 0%nat (Some test_Data)
             (fun resp => Unlock (Ret resp)) test_order); [reflexivity |].
    unfold iteration_order. reflexivity. }
  eapply rtc_l.
  { apply (step_unlock _ _ _ _ 0%nat (Some test_Data) (Ret test_resp)).
    reflexivity. }
  apply rtc_refl.
Defined.

(** *** Without the mutex *)

(** The mutex is needed: served by the handler without it, the request for
    the first device can get the samples of the second one as its body. *)
Lemma unlocked_bodies_mixed :
  rtc (step test_encode (fun r => unlocked (ServeHTTP quote_plain r)))
      server_init mixed_server
  /\ pool mixed_server !! 0%nat
     = Some (mkGoroutine (Some test_Data) (Ret mixed_resp))
  /\ (exists sent,
        scrapeDevice quote_plain other_Data test_order [] = (Return None, sent)
        /\ mixed_resp = Respond 200 (test_encode sent))
  /\ mixed_resp <> metrics_ServeHTTP test_encode test_mm test_order.
Proof.
  split_and!.
  - unfold mixed_server, server_init.
    eapply rtc_l; [apply (step_accept _ _ _ _ 0%nat test_Request); reflexivity |].
    eapply rtc_l; [apply (step_accept _ _ _ _ 1%nat other_Request); reflexivity |].
    eapply rtc_l.
    { apply (step_fetch _ _ _ _ 0%nat None "http://foo:9123"
               (fun res => unlocked (after_fetch quote_plain "http://foo:9123" res))
               (Ok test_Data)).
      reflexivity. }
    eapply rtc_l.
    { apply (step_fetch _ _ _ _ 1%nat None "http://bar:9123"
               (fun res => unlocked (after_fetch quote_plain "http://bar:9123" res))
               (Ok other_Data)).
      reflexivity. }
    eapply rtc_l.
    { apply (step_set_scrape _ _ _ _ 0%nat (Some test_Data)
               (scrapeDevice quote_plain test_Data)
               (ServeMetrics (fun resp => Ret resp))).
      reflexivity. }
    eapply rtc_l.
    { apply (step_set_scrape _ _ _ _ 1%nat (Some other_Data)
               (scrapeDevice quote_plain other_Data)
               (ServeMetrics (fun resp => Ret resp))).
      reflexivity. }
    eapply rtc_l.
    { apply (step_serve_metrics _ _ _ _ 0%nat (Some test_Data)
               (fun resp => Ret resp) test_order); [reflexivity |].
      unfold iteration_order. reflexivity. }
    apply rtc_refl.
  - reflexivity.
  - eexists. split; reflexivity.
  - vm_compute. discriminate.
Qed.

(** ** The request handler *)

Section Orchestrator.
Variable quote : string -> string.
Variable encode : list sample -> string.

Lemma run_critical (f : string -> result Data) (order : list (string * collector))
    (d : Data) (h : handler) :
  mu h = false ->
  run encode f order (Lock (critical quote d)) h
  = let resp := metrics_ServeHTTP encode (OnConstScrape (scrapeDevice quote d) (mm h)) order in
    Some ([EvLock; EvOnConstScrape; EvServeMetrics resp; EvUnlock; EvReturn resp],
          resp,
          mkHandler false (OnConstScrape (scrapeDevice quote d) (mm h))).
Proof. intros Hmu. simpl. by rewrite Hmu. Qed.

Lemma run_ServeHTTP (f : string -> result Data) (order : list (string * collector))
    (r : Request) (h : handler) :
  mu h = false ->
  run encode f order (ServeHTTP quote r) h
  = let target := Values_Get (Query r) "target" in
    if String.eqb target "" then
      let resp := http_Error "missing target parameter" 400 in
      Some ([EvReturn resp], resp, h)
    else
      match buildAddr target with
      | Err err =>
          let resp := http_Error ("malformed target parameter: " +:+ Error quote err) 400 in
          Some ([EvReturn resp], resp, h)
      | Ok addr =>
          match f addr with
          | Err err =>
              let resp := http_Error ("failed to fetch Key Light data from "
                                        +:+ quote addr +:+ ": " +:+ Error quote err) 500 in
              Some ([EvFetchCall addr; EvFetchReturn (Err err); EvReturn resp], resp, h)
          | Ok d =>
              let resp := metrics_ServeHTTP encode
                            (OnConstScrape (scrapeDevice quote d) (mm h)) order in
              Some ([EvFetchCall addr; EvFetchReturn (Ok d); EvLock; EvOnConstScrape;
                     EvServeMetrics resp; EvUnlock; EvReturn resp],
                    resp,
                    mkHandler false (OnConstScrape (scrapeDevice quote d) (mm h)))
          end
      end.
Proof.
  intros Hmu. unfold ServeHTTP. cbv zeta.
  destruct (String.eqb _ ""); [done |].
  destruct (buildAddr _) as [addr|err]; [|done].
  cbn [run]. destruct (f addr) as [d|err]; [|done].
  change (Lock _) with (Lock (critical quote d)).
  by rewrite run_critical.
Qed.

(** C2: a request ends at the first branch that applies.  Without a target
    the response is 400; with a target that [buildAddr] rejects it is 400
    and the body has the reason; when the fetch fails it is 500 and the
    body has the endpoint, as the verb q prints it, and the text of the
    error, and nothing is locked or rendered; otherwise it is 200 with the
    encoded metrics of the snapshot. *)
Theorem ServeHTTP_responds (f : string -> result Data)
    (order : list (string * collector)) (r : Request) (h : handler) :
  mu h = false -> consts (mm h) = consts NewHandler_mm ->
  iteration_order (mm h) order ->
  exists tr resp h',
    run encode f order (ServeHTTP quote r) h = Some (tr, resp, h')
    /\ let target := Values_Get (Query r) "target" in
       (Query r !! "target" = None -> target = "")
       /\ (target = "" ->
           resp = Respond 400 ("missing target parameter" +:+ newline)
           /\ tr = [EvReturn resp])
       /\ (target <> "" ->
           match buildAddr target with
           | Err err =>
               resp = Respond 400 ("malformed target parameter: "
                                     +:+ Error quote err +:+ newline)
               /\ tr = [EvReturn resp]
           | Ok addr =>
               match f addr with
               | Err err =>
                   resp = Respond 500 ("failed to fetch Key Light data from "
                                         +:+ quote addr +:+ ": "
                                         +:+ Error quote err +:+ newline)
                   /\ tr = [EvFetchCall addr; EvFetchReturn (Err err); EvReturn resp]
               | Ok d =>
                   exists sent,
                     scrapeDevice quote d order [] = (Return None, sent)
                     /\ resp = Respond 200 (encode sent)
               end
           end).
Proof.
  intros Hmu Hc Ho. rewrite run_ServeHTTP by done. cbv zeta.
  assert (iteration_order NewHandler_mm order) as Ho'.
  { unfold iteration_order, funcs in *. by rewrite <- Hc. }
  destruct (String.eqb_spec (Values_Get (Query r) "target") "") as [Ht|Ht].
  - eexists _, _, _. split; [done |]. split_and!; try done.
  - assert (Query r !! "target" = None -> Values_Get (Query r) "target" = "") as Habs.
    { unfold Values_Get. by intros ->. }
    destruct (buildAddr _) as [addr|err] eqn:Hb.
    + destruct (f addr) as [d|err] eqn:Hf.
      * eexists _, _, _. split; [done |]. split_and!; try done.
        intros _. destruct (scrapeDevice_sent quote d order Ho') as (sent & Hrun & _).
        exists sent. split; [done |].
        unfold metrics_ServeHTTP. simpl. by rewrite Hrun.
      * eexists _, _, _. split; [done |]. split_and!; try done.
        intros _. unfold http_Error. by rewrite !append_assoc.
    + eexists _, _, _. split; [done |]. by split_and!.
Qed.

(** C9: in the run of a request the mutex is locked only once the fetch
    has returned a snapshot, and then it is: the events of such a run are
    the call of the fetcher and its return, [Lock], [OnConstScrape] with
    the scrape function of the snapshot, the metrics handler, which renders
    with that function and writes the body, [Unlock], and the return.  A
    run without a target, with a target that [buildAddr] refuses, or whose
    fetch fails has none of [Lock], [OnConstScrape], the metrics handler
    and [Unlock].  The mutex is unlocked when the run ends. *)
Theorem ServeHTTP_lock_span (f : string -> result Data)
    (order : list (string * collector)) (r : Request) (h : handler) :
  mu h = false ->
  exists tr resp h',
    run encode f order (ServeHTTP quote r) h = Some (tr, resp, h')
    /\ mu h' = false
    /\ let target := Values_Get (Query r) "target" in
       (target = "" -> tr = [EvReturn resp])
       /\ (target <> "" ->
           match buildAddr target with
           | Err _ => tr = [EvReturn resp]
           | Ok addr =>
               match f addr with
               | Err err =>
                   tr = [EvFetchCall addr; EvFetchReturn (Err err); EvReturn resp]
               | Ok d =>
                   tr = [EvFetchCall addr; EvFetchReturn (Ok d);
                         EvLock; EvOnConstScrape; EvServeMetrics resp; EvUnlock;
                         EvReturn resp]
                   /\ resp = metrics_ServeHTTP encode
                               (OnConstScrape (scrapeDevice quote d) (mm h)) order
               end
           end).
Proof.
  intros Hmu. rewrite run_ServeHTTP by done. cbv zeta.
  destruct (String.eqb_spec (Values_Get (Query r) "target") "") as [Ht|Ht].
  { eexists _, _, _. split; [done |]. by split_and!. }
  destruct (buildAddr _) as [addr|err].
  2:{ eexists _, _, _. split; [done |]. by split_and!. }
  destruct (f addr) as [d|err] eqn:Hf.
  - eexists _, _, _. split; [done |]. by split_and!.
  - eexists _, _, _. split; [done |]. by split_and!.
Qed.
End Orchestrator.

Lemma ServeHTTP_responds_witness :
  exists tr resp h',
    run test_encode test_Fetch (map_to_list (funcs NewHandler_mm))
        (ServeHTTP quote_plain test_Request) NewHandler
    = Some (tr, resp, h')
    /\ exists sent,
         scrapeDevice quote_plain test_Data (map_to_list (funcs NewHandler_mm)) []
         = (Return None, sent)
         /\ resp = Respond 200 (test_encode sent).
Proof.
  destruct (ServeHTTP_responds quote_plain test_encode test_Fetch
              (map_to_list (funcs NewHandler_mm)) test_Request NewHandler)
    as (tr & resp & h' & Hrun & _ & _ & Hok).
  - reflexivity.
  - reflexivity.
  - unfold iteration_order. reflexivity.
  - exists tr, resp, h'. split; [exact Hrun |]. apply Hok. discriminate.
Defined.

Lemma ServeHTTP_lock_span_witness :
  exists tr resp h',
    run test_encode test_Fetch (map_to_list (funcs NewHandler_mm))
        (ServeHTTP quote_plain test_Request) NewHandler
    = Some (tr, resp, h')
    /\ mu h' = false
    /\ tr = [EvFetchCall "http://foo:9123"; EvFetchReturn (Ok test_Data);
             EvLock; EvOnConstScrape; EvServeMetrics resp; EvUnlock;
             EvReturn resp]
    /\ resp = metrics_ServeHTTP test_encode
                (OnConstScrape (scrapeDevice quote_plain test_Data) (mm NewHandler))
                (map_to_list (funcs NewHandler_mm)).
Proof.
  destruct (ServeHTTP_lock_span quote_plain test_encode test_Fetch
              (map_to_list (funcs NewHandler_mm)) test_Request NewHandler)
    as (tr & resp & h' & Hrun & Hmu & _ & Hok).
  - reflexivity.
  - exists tr, resp, h'. split; [exact Hrun |]. split; [exact Hmu |].
    apply Hok. discriminate.
Defined.

(** * More of the normaliser *)

Section NormaliserMore.

Lemma name_byte_plain (c : ascii) : name_byte c = true -> plain_byte c = true.
Proof. destruct c as [[] [] [] [] [] [] [] []]; try discriminate; reflexivity. Qed.

Lemma digit_byte_name (c : ascii) : digit_byte c = true -> name_byte c = true.
Proof. destruct c as [[] [] [] [] [] [] [] []]; try discriminate; reflexivity. Qed.

Lemma escape_plain (s : string) :
  all_bytes plain_byte s = true -> url.escape s url.encodeHost = s.
Proof.
  induction s as [|c s IH]; [done |].
  intros [Hc Hs]%andb_true_iff. apply negb_true_iff in Hc.
  simpl. rewrite Hc, andb_false_r. by rewrite IH.
Qed.

Lemma unescape_plain (s : string) :
  all_bytes plain_byte s = true -> url.unescape s url.encodeHost = Ok s.
Proof.
  induction s as [|c s IH]; [done |].
  intros [Hc Hs]%andb_true_iff. apply negb_true_iff in Hc.
  assert (Ascii.eqb c "%" = false) as Hpc.
  { destruct (Ascii.eqb_spec c "%") as [->|]; [|done].
    by rewrite shouldEscape_percent in Hc. }
  simpl. rewrite Hpc, Hc, andb_false_r, (IH Hs). simpl.
  destruct (Ascii.eqb_spec c "+") as [->|]; done.
Qed.

Lemma prefix_cons (c b : ascii) (r s : string) :
  String.prefix (String c r) (String b s) = Ascii.eqb c b && String.prefix r s.
Proof.
  change (String.prefix (String c r) (String b s))
    with (if ascii_dec c b then String.prefix r s else false).
  destruct (ascii_dec c b) as [->|Hne].
  - by rewrite Ascii.eqb_refl.
  - apply Ascii.eqb_neq in Hne. by rewrite Hne.
Qed.

Lemma prefix_other (c b : ascii) (r s : string) :
  b <> c -> String.prefix (String c r) (String b s) = false.
Proof.
  intros Hne. rewrite prefix_cons.
  assert (Ascii.eqb c b = false) as ->; [|done].
  apply Ascii.eqb_neq. congruence.
Qed.

Lemma Index_first_absent (c : ascii) (r s : string) :
  all_bytes (is_not c) s = true -> strings.Index s (String c r) = None.
Proof.
  induction s as [|b s IH]; [done |].
  intros [Hb Hs]%andb_true_iff.
  change (strings.Index (String b s) (String c r))
    with (if String.prefix (String c r) (String b s) then Some 0%nat
          else S <$> strings.Index s (String c r)).
  rewrite prefix_other, (IH Hs); [done |].
  unfold is_not in Hb. by apply negb_true_iff, Ascii.eqb_neq in Hb.
Qed.

Lemma Contains_separator_false (s : string) :
  all_bytes (is_not "/") s = true -> strings.Contains s "://" = false.
Proof.
  intros Hs. unfold strings.Contains. apply bool_decide_eq_false.
  assert (strings.Index s "://" = None) as ->; [| by intros [? ?]].
  induction s as [|b s IH]; [done |].
  simpl in Hs. apply andb_true_iff in Hs as [Hb Hs].
  change (strings.Index (String b s) "://")
    with (if String.prefix "://" (String b s) then Some 0%nat
          else S <$> strings.Index s "://").
  rewrite (IH Hs).
  assert (String.prefix "://" (String b s) = false) as ->; [|reflexivity].
  rewrite prefix_cons. destruct (Ascii.eqb ":" b); [simpl | done].
  destruct s as [|b2 s]; [done |].
  simpl in Hs. apply andb_true_iff in Hs as [Hb2 _].
  unfold is_not in Hb2. apply negb_true_iff in Hb2.
  by rewrite prefix_cons, Ascii.eqb_sym, Hb2.
Qed.

Lemma hostport_of_nonempty (s : string) : hostport_of s <> "".
Proof.
  unfold hostport_of.
  destruct (net.SplitHostPort s) as [[h p]|]; apply JoinHostPort_nonempty.
Qed.

Lemma buildAddr_fuel_hostport_of (s : string) (n : nat) :
  strings.Contains s "://" = false ->
  buildAddr_fuel (S n) s
  = buildAddr_fuel n ("http://" +:+ url.escape (hostport_of s) url.encodeHost).
Proof.
  intros Hc. simpl. rewrite Hc. simpl. unfold buildHostPort_fuel, hostport_of.
  destruct (net.SplitHostPort s) as [[h p]|];
    by rewrite String_http_host by apply JoinHostPort_nonempty.
Qed.

Lemma buildAddr_fuel_http_escaped (hp : string) (n : nat) :
  hp <> "" ->
  let e := url.escape hp url.encodeHost in
  buildAddr_fuel (S n) ("http://" +:+ e)
  = Some (match url.parseHost e with
          | Ok _ => Ok ("http://" +:+ e)
          | Err err => Err (url_Error "parse" ("http://" +:+ e) err)
          end).
Proof.
  intros Hhp. cbv zeta.
  set (s' := "http://" +:+ url.escape hp url.encodeHost).
  rewrite buildAddr_fuel_scheme by apply Contains_http.
  simpl. unfold s'. rewrite Contains_http. simpl negb. cbv iota.
  rewrite Parse_http_escaped.
  destruct (url.parseHost _) as [h|] eqn:Hh; [|done].
  apply parseHost_escape in Hh as ->.
  cbn [url.Path url.Scheme url.Host String.eqb Ascii.eqb Bool.eqb url.set_Path negb andb orb].
  rewrite (eqb_nil_false _ Hhp). cbn [negb andb orb].
  by rewrite String_http_host.
Qed.

(** What [buildAddr] returns for a target without a scheme separator: the
    host and port that [buildHostPort] joins, escaped, behind http://, when
    the URL parser takes them for a host. *)
Lemma buildAddr_schemeless (s : string) :
  strings.Contains s "://" = false ->
  buildAddr s
  = let e := url.escape (hostport_of s) url.encodeHost in
    match url.parseHost e with
    | Ok _ => Ok ("http://" +:+ e)
    | Err err => Err (url_Error "parse" ("http://" +:+ e) err)
    end.
Proof.
  intros Hc. unfold buildAddr.
  rewrite buildAddr_fuel_hostport_of by done.
  rewrite buildAddr_fuel_http_escaped by apply hostport_of_nonempty.
  cbv zeta. by destruct (url.parseHost _).
Qed.

(** *** [net.SplitHostPort] on the targets *)

Lemma SplitHostPort_no_colon (s : string) :
  all_bytes (is_not ":") s = true ->
  net.SplitHostPort s = Err (AddrError net.missingPort s).
Proof.
  intros Hs. unfold net.SplitHostPort. by rewrite (LastIndex_byte_None _ _ Hs).
Qed.

Lemma name_bytes_no (c : ascii) (s : string) :
  name_byte c = false -> all_bytes name_byte s = true ->
  all_bytes (is_not c) s = true.
Proof.
  intros Hc. apply all_bytes_impl. intros b Hb. unfold is_not.
  apply negb_true_iff, Ascii.eqb_neq. intros ->. congruence.
Qed.

Lemma HasPrefix_name_bytes (host rest : string) (c d : ascii) :
  all_bytes name_byte host = true -> name_byte c = false -> c <> d ->
  strings.HasPrefix (host +:+ String d rest) (String c "") = false.
Proof.
  intros Hh Hc Hd. unfold strings.HasPrefix.
  destruct host as [|b host]; simpl String.append.
  - apply prefix_other. congruence.
  - apply prefix_other. simpl in Hh. apply andb_true_iff in Hh as [Hb _].
    intros ->. congruence.
Qed.

Lemma slice_to_app_length (s1 s2 : string) :
  slice_to (String.length s1) (s1 +:+ s2) = s1.
Proof. induction s1 as [|c s1 IH]; simpl; [by destruct s2 | by rewrite IH]. Qed.

Lemma Contains_byte_false (c : ascii) (s : string) :
  all_bytes (is_not c) s = true -> strings.Contains s (String c "") = false.
Proof.
  intros H. unfold strings.Contains. rewrite (Index_byte_None _ _ H).
  apply bool_decide_eq_false. by intros [? ?].
Qed.

Lemma SplitHostPort_host_port (host port : string) :
  all_bytes name_byte host = true -> all_bytes name_byte port = true ->
  net.SplitHostPort (host +:+ ":" +:+ port) = Ok (host, port).
Proof.
  intros Hh Hp. unfold net.SplitHostPort.
  change (":" +:+ port) with (String ":" port).
  rewrite LastIndex_app_byte by (by apply name_bytes_no).
  rewrite (HasPrefix_name_bytes host port "[" ":") by done.
  unfold mbind, result_bind.
  cbv zeta. rewrite slice_to_app_length.
  rewrite (Contains_byte_false ":" host) by (by apply name_bytes_no).
  cbv beta iota. change (slice_from 0 ?x) with x.
  assert (forall c, name_byte c = false -> c <> ":"%char ->
            strings.Contains (host +:+ String ":" port) (String c "") = false) as Hno.
  { intros c Hc Hne. apply Contains_byte_false.
    rewrite all_bytes_app. simpl.
    rewrite !(name_bytes_no c) by done.
    unfold is_not. apply Ascii.eqb_neq in Hne. by rewrite Ascii.eqb_sym, Hne. }
  rewrite !Hno by done.
  f_equal. f_equal.
  change (String ":" port) with (":" +:+ port). rewrite <- append_assoc.
  replace (String.length host + 1)%nat with (String.length (host +:+ ":"))
    by (rewrite append_length; simpl; lia).
  apply slice_from_app_length.
Qed.

(** *** [parseHost] on a host and a port *)

Lemma name_bytes_plain (s : string) :
  all_bytes name_byte s = true -> all_bytes plain_byte s = true.
Proof. apply all_bytes_impl, name_byte_plain. Qed.

Lemma parseHost_host_port (host port : string) :
  all_bytes name_byte host = true -> all_bytes name_byte port = true ->
  url.parseHost (host +:+ ":" +:+ port)
  = if all_bytes digit_byte port then Ok (host +:+ ":" +:+ port)
    else Err (errorf_q "invalid port " (":" +:+ port) " after host").
Proof.
  intros Hh Hp. unfold url.parseHost.
  change (":" +:+ port) with (String ":" port).
  rewrite (HasPrefix_name_bytes host port "[" ":") by done.
  rewrite LastIndex_app_byte by (by apply name_bytes_no).
  rewrite slice_from_app_length.
  change (url.validOptionalPort (String ":" port)) with (all_bytes digit_byte port).
  destruct (all_bytes digit_byte port); [simpl | done].
  apply unescape_plain. rewrite all_bytes_app. simpl.
  by rewrite !name_bytes_plain.
Qed.

Lemma hostport_plain (host port : string) :
  all_bytes name_byte host = true -> all_bytes name_byte port = true ->
  url.escape (host +:+ ":" +:+ port) url.encodeHost = host +:+ ":" +:+ port.
Proof.
  intros Hh Hp. apply escape_plain. rewrite all_bytes_app. simpl.
  by rewrite !name_bytes_plain.
Qed.

Lemma buildAddr_host_port (s host port : string) :
  all_bytes name_byte host = true -> all_bytes name_byte port = true ->
  strings.Contains s "://" = false ->
  hostport_of s = host +:+ ":" +:+ port ->
  buildAddr s
  = if all_bytes digit_byte port then Ok ("http://" +:+ host +:+ ":" +:+ port)
    else Err (url_Error "parse" ("http://" +:+ host +:+ ":" +:+ port)
                (errorf_q "invalid port " (":" +:+ port) " after host")).
Proof.
  intros Hh Hp Hc Hhp. rewrite buildAddr_schemeless by done. cbv zeta.
  rewrite Hhp, hostport_plain, parseHost_host_port by done.
  by destruct (all_bytes digit_byte port).
Qed.

Lemma Contains_host_port (host port : string) :
  all_bytes name_byte host = true -> all_bytes name_byte port = true ->
  strings.Contains (host +:+ ":" +:+ port) "://" = false.
Proof.
  intros Hh Hp. apply Contains_separator_false.
  rewrite all_bytes_app. simpl. by rewrite !(name_bytes_no "/").
Qed.

Lemma JoinHostPort_name (host port : string) :
  all_bytes name_byte host = true ->
  net.JoinHostPort host port = host +:+ ":" +:+ port.
Proof.
  intros Hh. unfold net.JoinHostPort.
  by rewrite (Contains_byte_false ":" host) by (by apply name_bytes_no).
Qed.

(** X1: a target that is a host name alone, made of letters, digits, [-]
    and [.], is accepted; the endpoint is http, that host and the default
    port of the Key Light, 9123. *)
Theorem buildAddr_default_port (host : string) :
  all_bytes name_byte host = true ->
  buildAddr host = Ok ("http://" +:+ host +:+ ":" +:+ keylightPort).
Proof.
  intros Hh.
  rewrite (buildAddr_host_port host host keylightPort); try done.
  - apply Contains_separator_false. by apply name_bytes_no.
  - unfold hostport_of.
    rewrite SplitHostPort_no_colon by (by apply name_bytes_no).
    by apply JoinHostPort_name.
Qed.

(** X2: a target host:port whose port is made of digits is accepted, and
    the endpoint keeps that port: the default port is not put in its place,
    not even for a port that is empty. *)
Theorem buildAddr_numeric_port (host port : string) :
  all_bytes name_byte host = true -> all_bytes digit_byte port = true ->
  buildAddr (host +:+ ":" +:+ port) = Ok ("http://" +:+ host +:+ ":" +:+ port).
Proof.
  intros Hh Hp.
  assert (all_bytes name_byte port = true) as Hp'.
  { revert Hp. apply all_bytes_impl, digit_byte_name. }
  rewrite (buildAddr_host_port _ host port), Hp; try done.
  - by apply Contains_host_port.
  - unfold hostport_of. rewrite SplitHostPort_host_port by done.
    by apply JoinHostPort_name.
Qed.

(** X3: a target host:port whose port is not made of digits is refused,
    with the error of the URL parser for the URL http://host:port: invalid
    port after host. *)
Theorem buildAddr_bad_port (host port : string) :
  all_bytes name_byte host = true -> all_bytes name_byte port = true ->
  all_bytes digit_byte port = false ->
  buildAddr (host +:+ ":" +:+ port)
  = Err (url_Error "parse" ("http://" +:+ host +:+ ":" +:+ port)
           (errorf_q "invalid port " (":" +:+ port) " after host")).
Proof.
  intros Hh Hp Hd.
  rewrite (buildAddr_host_port _ host port), Hd; try done.
  - by apply Contains_host_port.
  - unfold hostport_of. rewrite SplitHostPort_host_port by done.
    by apply JoinHostPort_name.
Qed.

(** *** Addresses with colons *)

Lemma addr_byte_plain (c : ascii) : addr_byte c = true -> plain_byte c = true.
Proof. destruct c as [[] [] [] [] [] [] [] []]; try discriminate; reflexivity. Qed.

Lemma addr_bytes_no (c : ascii) (s : string) :
  addr_byte c = false -> all_bytes addr_byte s = true ->
  all_bytes (is_not c) s = true.
Proof.
  intros Hc. apply all_bytes_impl. intros b Hb. unfold is_not.
  apply negb_true_iff, Ascii.eqb_neq. intros ->. congruence.
Qed.

Lemma LastIndex_count (c : ascii) (s : string) :
  match strings.LastIndex s (String c "") with
  | Some i => strings.CountByte s c = S (strings.CountByte (slice_to i s) c)
  | None => strings.CountByte s c = 0%nat
  end.
Proof.
  induction s as [|b s IH]; [done |].
  rewrite LastIndex_cons, prefix_byte, Ascii.eqb_sym.
  destruct (strings.LastIndex s (String c "")) as [i|].
  - simpl. by rewrite IH.
  - simpl. rewrite IH. by destruct (Ascii.eqb b c).
Qed.

Lemma Contains_byte_count (c : ascii) (s : string) :
  (0 < strings.CountByte s c)%nat -> strings.Contains s (String c "") = true.
Proof.
  intros Hn. unfold strings.Contains. apply bool_decide_eq_true.
  induction s as [|b s IH]; [simpl in Hn; lia |].
  change (strings.Index (String b s) (String c ""))
    with (if String.prefix (String c "") (String b s) then Some 0%nat
          else S <$> strings.Index s (String c "")).
  rewrite prefix_byte, Ascii.eqb_sym. simpl in Hn.
  destruct (Ascii.eqb b c); [by eexists |].
  destruct IH as [i ->]; [lia | by eexists].
Qed.

Lemma SplitHostPort_many_colons (s : string) :
  all_bytes addr_byte s = true -> (2 <= strings.CountByte s ":")%nat ->
  net.SplitHostPort s = Err (AddrError net.tooManyColons s).
Proof.
  intros Hs Hn. unfold net.SplitHostPort.
  pose proof (LastIndex_count ":" s) as Hi.
  destruct (strings.LastIndex s ":") as [i|]; [|lia].
  assert (strings.HasPrefix s "[" = false) as ->.
  { unfold strings.HasPrefix. destruct s as [|b s]; [done |].
    apply prefix_other. simpl in Hs. apply andb_true_iff in Hs as [Hb _].
    intros ->. done. }
  unfold mbind, result_bind. cbv zeta.
  rewrite Contains_byte_count by lia. done.
Qed.

Lemma slice_from_app_next (a t : string) (c : ascii) :
  slice_from (String.length a + 1) (a +:+ String c t) = t.
Proof.
  induction a as [|b a IH]; [done |]. simpl. apply IH.
Qed.

Lemma parseHost_bracket (s port : string) :
  all_bytes addr_byte s = true -> all_bytes digit_byte port = true ->
  url.parseHost ("[" +:+ s +:+ "]:" +:+ port) = Ok ("[" +:+ s +:+ "]:" +:+ port).
Proof.
  intros Hs Hp.
  assert (all_bytes name_byte port = true) as Hp'.
  { revert Hp. apply all_bytes_impl, digit_byte_name. }
  assert (all_bytes plain_byte ("[" +:+ s +:+ "]:" +:+ port) = true) as Hplain.
  { simpl. rewrite all_bytes_app. simpl.
    rewrite (all_bytes_impl _ _ _ addr_byte_plain Hs).
    by rewrite name_bytes_plain. }
  assert (strings.HasPrefix ("[" +:+ s +:+ "]:" +:+ port) "[" = true) as Hpre
    by apply (prefix_app "[").
  assert (all_bytes (is_not "]") ("[" +:+ s) = true) as Ha1
    by (by apply (addr_bytes_no "]" s)).
  assert (all_bytes (is_not "%") ("[" +:+ s) = true) as Ha2
    by (by apply (addr_bytes_no "%" s)).
  revert Hplain Hpre.
  change ("[" +:+ s +:+ "]:" +:+ port)
    with (("[" +:+ s) +:+ String "]" (":" +:+ port)).
  set (a := "[" +:+ s) in *. clearbody a.
  intros Hplain Hpre. unfold url.parseHost. rewrite Hpre.
  rewrite LastIndex_app_byte by (simpl; by rewrite (name_bytes_no "]")).
  rewrite slice_from_app_next.
  change (url.validOptionalPort (":" +:+ port)) with (all_bytes digit_byte port).
  rewrite Hp. simpl negb. cbv iota.
  rewrite slice_to_app_length, Index_first_absent by done.
  by apply unescape_plain.
Qed.

(** A target with two colons or more and no brackets is taken as a host
    without a port, and goes into brackets; the parser of this release
    asks nothing of the text between them. *)
Lemma buildAddr_many_colons (s : string) :
  all_bytes addr_byte s = true -> (2 <= strings.CountByte s ":")%nat ->
  buildAddr s = Ok ("http://[" +:+ s +:+ "]:" +:+ keylightPort).
Proof.
  intros Hs Hn.
  assert (all_bytes plain_byte ("[" +:+ s +:+ "]:" +:+ keylightPort) = true) as Hplain.
  { simpl. rewrite all_bytes_app. simpl.
    by rewrite (all_bytes_impl _ _ _ addr_byte_plain Hs). }
  rewrite buildAddr_schemeless.
  2:{ apply Contains_separator_false. by apply addr_bytes_no. }
  cbv zeta.
  assert (hostport_of s = "[" +:+ s +:+ "]:" +:+ keylightPort) as ->.
  { unfold hostport_of. rewrite SplitHostPort_many_colons by done.
    unfold net.JoinHostPort. by rewrite Contains_byte_count by lia. }
  rewrite escape_plain by done.
  by rewrite parseHost_bracket.
Qed.

(** *** IPv6 addresses *)

Lemma ishex_addr_byte (c : ascii) : url.ishex c = true -> addr_byte c = true.
Proof. destruct c as [[] [] [] [] [] [] [] []]; try discriminate; reflexivity. Qed.

Lemma groups_addr_bytes (gs : list string) :
  forallb hex_group gs = true -> all_bytes addr_byte (String.concat ":" gs) = true.
Proof.
  induction gs as [|g gs IH]; [done |].
  intros [Hg Hgs]%andb_true_iff.
  assert (all_bytes addr_byte g = true) as Hb.
  { apply andb_true_iff in Hg as [_ Hg]. revert Hg.
    apply all_bytes_impl, ishex_addr_byte. }
  destruct gs as [|g' gs]; [done |].
  change (String.concat ":" (g :: g' :: gs))
    with (g +:+ ":" +:+ String.concat ":" (g' :: gs)).
  rewrite !all_bytes_app, Hb, (IH Hgs). done.
Qed.

Lemma CountByte_app (s t : string) (c : ascii) :
  strings.CountByte (s +:+ t) c = (strings.CountByte s c + strings.CountByte t c)%nat.
Proof. induction s as [|b s IH]; simpl; [done |]. rewrite IH. lia. Qed.

Lemma CountByte_groups (gs : list string) :
  (length gs - 1 <= strings.CountByte (String.concat ":" gs) ":")%nat.
Proof.
  induction gs as [|g gs IH]; [done |].
  destruct gs as [|g' gs]; [simpl; lia |].
  change (String.concat ":" (g :: g' :: gs))
    with (g +:+ ":" +:+ String.concat ":" (g' :: gs)).
  rewrite !CountByte_app. simpl in *. lia.
Qed.

(** X4: a target that is an IPv6 address, written as eight groups of
    hexadecimal digits or with [::] for the groups left out, is taken as a
    host without a port: the endpoint has it in brackets, with the default
    port. *)
Theorem buildAddr_ipv6 (gs1 : list string) (gs2 : option (list string)) :
  is_ipv6 gs1 gs2 = true ->
  buildAddr (ipv6_text gs1 gs2)
  = Ok ("http://[" +:+ ipv6_text gs1 gs2 +:+ "]:" +:+ keylightPort).
Proof.
  intros [H1 H2]%andb_true_iff. apply buildAddr_many_colons.
  - destruct gs2 as [gs2|]; unfold ipv6_text.
    + apply andb_true_iff in H2 as [H2 _].
      rewrite !all_bytes_app, !groups_addr_bytes by done. reflexivity.
    + by apply groups_addr_bytes.
  - destruct gs2 as [gs2|]; unfold ipv6_text.
    + rewrite !CountByte_app. simpl. lia.
    + apply Nat.eqb_eq in H2. pose proof (CountByte_groups gs1). lia.
Qed.

(** *** A bare trailing slash *)

Lemma Index_app_byte (c : ascii) (a t : string) :
  all_bytes (is_not c) a = true ->
  strings.Index (a +:+ String c t) (String c "") = Some (String.length a).
Proof.
  induction a as [|b a IH]; intros Ha.
  - simpl String.append.
    change (strings.Index (String c t) (String c ""))
      with (if String.prefix (String c "") (String c t) then Some 0%nat
            else S <$> strings.Index t (String c "")).
    by rewrite prefix_byte, Ascii.eqb_refl.
  - simpl in Ha. apply andb_true_iff in Ha as [Hb Ha].
    simpl String.append.
    change (strings.Index (String b (a +:+ String c t)) (String c ""))
      with (if String.prefix (String c "") (String b (a +:+ String c t))
            then Some 0%nat
            else S <$> strings.Index (a +:+ String c t) (String c "")).
    rewrite prefix_byte, (IH Ha), Ascii.eqb_sym.
    unfold is_not in Hb. apply negb_true_iff in Hb. by rewrite Hb.
Qed.

Lemma no_delim_no (c : ascii) (a : string) :
  is_delim c = true ->
  all_bytes (fun b => negb (is_delim b)) a = true -> all_bytes (is_not c) a = true.
Proof.
  intros Hc. apply all_bytes_impl. intros b Hb. unfold is_not.
  apply negb_true_iff, Ascii.eqb_neq. intros ->. by rewrite Hc in Hb.
Qed.

Lemma split_authority (a path : string) :
  all_bytes (is_not "/") a = true ->
  String.eqb path "" || strings.HasPrefix path "/" = true ->
  url.split (a +:+ path) "/" false = (a, path).
Proof.
  intros Ha Hpath. destruct path as [|c path].
  - rewrite append_nil_r. by apply split_byte_None.
  - change (String.eqb (String c path) "") with false in Hpath.
    unfold strings.HasPrefix in Hpath.
    rewrite orb_false_l, prefix_byte in Hpath. apply Ascii.eqb_eq in Hpath as <-.
    unfold url.split. rewrite Index_app_byte by done.
    change (String "/" path) with ("/" +:+ path).
    by rewrite slice_to_app_length, slice_from_app_length.
Qed.

Lemma Parse_authority_path (p a path : string) :
  p = "http" \/ p = "https" ->
  all_bytes (fun b => negb (is_delim b)) a = true ->
  is_path path = true ->
  url.Parse (p +:+ "://" +:+ a +:+ path)
  = let whole := p +:+ "://" +:+ a +:+ path in
    if url.stringContainsCTLByte (a +:+ path)
    then Err (url_Error "parse" whole
                (errorString "net/url: invalid control character in URL"))
    else match url.parseAuthority a with
         | Ok (user, host) =>
             match url.setPath path with
             | Ok (pa, raw) => Ok (url.mkURL p "" user host pa raw false "" "")
             | Err err => Err (url_Error "parse" whole err)
             end
         | Err err => Err (url_Error "parse" whole err)
         end.
Proof.
  intros Hp Ha [[Hpath Hpq]%andb_true_iff Hph]%andb_true_iff.
  pose proof (no_delim_no "/" a eq_refl Ha) as Hslash.
  pose proof (no_delim_no "?" a eq_refl Ha) as Hq.
  pose proof (no_delim_no "#" a eq_refl Ha) as Hhash.
  cbv zeta. set (whole := p +:+ "://" +:+ a +:+ path).
  assert (whole = (p +:+ "://") +:+ a +:+ path) as Hw
    by (unfold whole; by destruct Hp as [-> | ->]).
  assert (all_bytes (is_not "#") whole = true) as Hwh.
  { rewrite Hw, !all_bytes_app, Hhash, Hph. by destruct Hp as [-> | ->]. }
  assert (url.stringContainsCTLByte whole = url.stringContainsCTLByte (a +:+ path))
    as Hctl.
  { unfold url.stringContainsCTLByte. f_equal. rewrite Hw, !all_bytes_app.
    by destruct Hp as [-> | ->]. }
  unfold url.Parse.
  rewrite (split_byte_None _ _ _ Hwh).
  unfold url.parse. rewrite Hctl.
  destruct (url.stringContainsCTLByte (a +:+ path)); [done |].
  assert (url.getscheme whole = Ok (p, "//" +:+ a +:+ path)) as ->
    by (unfold whole; by destruct Hp as [-> | ->]).
  assert (String.eqb whole "" = false /\ String.eqb whole "*" = false) as [-> ->]
    by (unfold whole; by destruct Hp as [-> | ->]).
  assert (strings.ToLower p = p) as Hlow by (by destruct Hp as [-> | ->]).
  assert (String.eqb p "" = false) as Hpe by (by destruct Hp as [-> | ->]).
  assert (all_bytes (is_not "?") ("//" +:+ a +:+ path) = true) as Hq'.
  { simpl. by rewrite all_bytes_app, Hq, Hpq. }
  unfold mbind at 1, result_bind at 1. cbv beta iota zeta.
  rewrite Hlow.
  rewrite (CountByte_None _ _ Hq').
  change (bool_decide (0%nat = 1%nat)) with false.
  rewrite (andb_false_r (strings.HasSuffix _ _)), (split_byte_None _ _ _ Hq').
  cbv beta iota zeta.
  change (strings.HasPrefix ("//" +:+ a +:+ path) "/") with true.
  assert (strings.HasPrefix ("//" +:+ a +:+ path) "//" = true) as ->
    by apply (prefix_app "//").
  change (slice_from 2 ("//" +:+ a +:+ path)) with (a +:+ path).
  rewrite Hpe. cbn [negb andb orb].
  rewrite split_authority by done.
  unfold mbind at 1 2, result_bind at 1 2.
  destruct (url.parseAuthority a) as [[user host]|]; [|done].
  unfold mbind, result_bind.
  by destruct (url.setPath path) as [[pa raw]|].
Qed.

Lemma Contains_https (r : string) : strings.Contains ("https://" +:+ r) "://" = true.
Proof.
  unfold strings.Contains. apply bool_decide_eq_true.
  exists 5%nat. destruct r; reflexivity.
Qed.

Lemma buildAddr_authority (p a path : string) :
  p = "http" \/ p = "https" ->
  all_bytes (fun b => negb (is_delim b)) a = true ->
  path = "" \/ path = "/" ->
  buildAddr (p +:+ "://" +:+ a +:+ path)
  = if url.stringContainsCTLByte a
    then Err (url_Error "parse" (p +:+ "://" +:+ a +:+ path)
                (errorString "net/url: invalid control character in URL"))
    else match url.parseAuthority a with
         | Ok (user, host) =>
             let out := url.String (url.mkURL p "" user host "" "" false "" "") in
             if String.eqb host "" then Err (errorf_q "invalid device URL: " out "")
             else Ok out
         | Err err => Err (url_Error "parse" (p +:+ "://" +:+ a +:+ path) err)
         end.
Proof.
  intros Hp Ha Hpath. unfold buildAddr.
  assert (strings.Contains (p +:+ "://" +:+ a +:+ path) "://" = true) as Hc.
  { destruct Hp as [-> | ->]; [apply Contains_http | apply Contains_https]. }
  rewrite buildAddr_fuel_scheme by done.
  cbn [buildAddr_fuel]. rewrite Hc. simpl negb. cbv iota.
  rewrite Parse_authority_path by (by destruct Hpath as [-> | ->]; rewrite ?andb_true_r).
  cbv zeta.
  assert (url.stringContainsCTLByte (a +:+ path) = url.stringContainsCTLByte a) as ->.
  { unfold url.stringContainsCTLByte. rewrite all_bytes_app.
    destruct Hpath as [-> | ->]; simpl; by rewrite ?andb_true_r. }
  destruct (url.stringContainsCTLByte a); [done |].
  destruct (url.parseAuthority a) as [[user host]|]; [|done].
  assert (url.setPath path = Ok (path, "")) as ->
    by (by destruct Hpath as [-> | ->]).
  destruct Hp as [-> | ->], Hpath as [-> | ->];
    cbn [url.Path url.Scheme url.Host url.set_Path url.Opaque url.User url.RawPath
         url.ForceQuery url.RawQuery url.Fragment
         String.eqb Ascii.eqb Bool.eqb negb andb orb];
    by destruct (String.eqb host "").
Qed.

(** X5: for a URL with scheme http or https, a slash alone after the
    authority changes nothing: with it and without it [buildAddr] accepts
    the same, and returns the same endpoint, which has no slash. *)
Theorem buildAddr_trailing_slash (p a out : string) :
  p = "http" \/ p = "https" ->
  all_bytes (fun b => negb (is_delim b)) a = true ->
  buildAddr (p +:+ "://" +:+ a +:+ "/") = Ok out
  <-> buildAddr (p +:+ "://" +:+ a) = Ok out.
Proof.
  intros Hp Ha.
  pose proof (buildAddr_authority p a "" Hp Ha (or_introl eq_refl)) as H0.
  rewrite append_nil_r in H0.
  rewrite (buildAddr_authority p a "/" Hp Ha (or_intror eq_refl)), H0.
  destruct (url.stringContainsCTLByte a); [done |].
  destruct (url.parseAuthority a) as [[user host]|]; [|done].
  done.
Qed.

(** X6: a URL with scheme http or https whose authority is followed by a
    path longer than the slash is never accepted. *)
Theorem buildAddr_rejects_path (p a q out : string) :
  p = "http" \/ p = "https" ->
  all_bytes (fun b => negb (is_delim b)) a = true ->
  q <> "" -> all_bytes (is_not "?") q = true -> all_bytes (is_not "#") q = true ->
  buildAddr (p +:+ "://" +:+ a +:+ "/" +:+ q) <> Ok out.
Proof.
  intros Hp Ha Hq Hqq Hqh. unfold buildAddr.
  assert (strings.Contains (p +:+ "://" +:+ a +:+ "/" +:+ q) "://" = true) as Hc.
  { destruct Hp as [-> | ->]; [apply Contains_http | apply Contains_https]. }
  rewrite buildAddr_fuel_scheme by done.
  cbn [buildAddr_fuel]. rewrite Hc. simpl negb. cbv iota.
  rewrite Parse_authority_path; [| done | done |].
  2:{ unfold is_path, strings.HasPrefix.
      change ("/" +:+ q) with (String "/" q). rewrite prefix_byte.
      cbn [all_bytes]. by rewrite Hqq, Hqh. }
  cbv zeta.
  destruct (url.stringContainsCTLByte _); [done |].
  destruct (url.parseAuthority a) as [[user host]|]; [|done].
  unfold url.setPath, mbind, result_bind.
  destruct (url.unescape ("/" +:+ q) url.encodePath) as [pa|] eqn:Hun; [|done].
  apply unescape_other_inv in Hun as (t & Ht & ->); [| done..].
  assert (t <> "") as Hne by (intros ->; by apply unescape_eq_nil in Ht).
  assert (String.eqb (String "/" t) "/" = false) as Hs1.
  { apply String.eqb_neq. by intros [= ->]. }
  destruct (String.eqb _ (url.escape _ _));
    cbn [url.Path url.Scheme url.Host url.set_Path]; rewrite Hs1;
    cbn [url.Path url.Scheme url.Host url.set_Path String.eqb negb];
    by rewrite !orb_true_r.
Qed.
End NormaliserMore.

Lemma buildAddr_default_port_witness :
  buildAddr "keylight.local" = Ok "http://keylight.local:9123".
Proof. apply (buildAddr_default_port "keylight.local"). reflexivity. Defined.

Lemma buildAddr_numeric_port_witness :
  buildAddr "foo:8080" = Ok "http://foo:8080".
Proof. apply (buildAddr_numeric_port "foo" "8080"); reflexivity. Defined.

Lemma buildAddr_bad_port_witness :
  buildAddr "foo:bar"
  = Err (url_Error "parse" "http://foo:bar"
           (errorf_q "invalid port " ":bar" " after host")).
Proof. apply (buildAddr_bad_port "foo" "bar"); reflexivity. Defined.

Lemma buildAddr_ipv6_witness :
  buildAddr "fe80::1" = Ok "http://[fe80::1]:9123".
Proof. apply (buildAddr_ipv6 ["fe80"] (Some ["1"])). reflexivity. Defined.

Lemma buildAddr_trailing_slash_witness :
  buildAddr "https://user@foo:9123/" = Ok "https://user@foo:9123"
  <-> buildAddr "https://user@foo:9123" = Ok "https://user@foo:9123".
Proof.
  apply (buildAddr_trailing_slash "https" "user@foo:9123" "https://user@foo:9123");
    [by right | reflexivity].
Defined.

Lemma buildAddr_rejects_path_witness :
  buildAddr "http://foo:9123/elgato/lights" <> Ok "http://foo:9123".
Proof.
  apply (buildAddr_rejects_path "http" "foo:9123" "elgato/lights" "http://foo:9123");
    [by left | reflexivity | discriminate | reflexivity | reflexivity].
Defined.

(** ** The calls between [buildAddr] and [buildHostPort] *)

Section Levels.

(** X7: [buildAddr] and [buildHostPort] call each other, and the calls end:
    what [buildHostPort] hands back to [buildAddr] has a scheme, so that no
    run goes deeper than two calls of [buildAddr], whatever the input. *)
Theorem buildAddr_two_levels (s : string) (n : nat) :
  (2 <= n)%nat -> buildAddr_fuel n s = Some (buildAddr s).
Proof.
  intros Hn. replace n with (2 + (n - 2))%nat by lia.
  destruct (buildAddr_fuel_enough s (n - 2)) as [-> [r Hr]].
  unfold buildAddr. by rewrite Hr.
Qed.

End Levels.

Lemma buildAddr_two_levels_witness :
  buildAddr_fuel 5 "foo:9123" = Some (buildAddr "foo:9123").
Proof. apply (buildAddr_two_levels "foo:9123" 5). lia. Defined.

(** * More of the pass over a snapshot *)

Section ScrapeMore.
Variable quote : string -> string.

Lemma scrapeDevice_order_sent (d : Data) (order : list (string * collector)) :
  iteration_order NewHandler_mm order ->
  exists names,
    names ≡ₚ declared
    /\ scrapeDevice quote d order [] = (Return None, names ≫= emitted d).
Proof.
  intros (names & -> & Hnames)%iteration_order_entries.
  exists names. split; [done |].
  pose proof (scrapeDevice_entries quote d names []) as Hrun.
  destruct (find _ names) as [x|] eqn:Hx; [|done].
  apply find_some in Hx as [Hin Hnd%negb_true_iff].
  apply list_elem_of_In in Hin. rewrite Hnames in Hin.
  unfold is_declared in Hnd. by apply bool_decide_eq_false in Hnd.
Qed.

(** X8: the order in which the map of collectors is ranged over does not
    matter: two passes over the same snapshot send the same samples, up to
    their order. *)
Theorem scrapeDevice_order_independent (d : Data)
    (order1 order2 : list (string * collector)) :
  iteration_order NewHandler_mm order1 -> iteration_order NewHandler_mm order2 ->
  (scrapeDevice quote d order1 []).2 ≡ₚ (scrapeDevice quote d order2 []).2.
Proof.
  intros (n1 & Hn1 & ->)%(scrapeDevice_order_sent d)
         (n2 & Hn2 & ->)%(scrapeDevice_order_sent d).
  simpl. by rewrite Hn1, Hn2.
Qed.

Ltac name_cases :=
  repeat match goal with
    | |- context [bool_decide (?a = ?b)] =>
        first [ rewrite (bool_decide_eq_true_2 (a = b)) by reflexivity
              | rewrite (bool_decide_eq_false_2 (a = b)) by discriminate ]
    | H : context [bool_decide (?a = ?b)] |- _ =>
        first [ rewrite (bool_decide_eq_true_2 (a = b)) in H by reflexivity
              | rewrite (bool_decide_eq_false_2 (a = b)) in H by discriminate ]
    end.

Lemma emitted_name (d : Data) (name : string) (x : sample) :
  x ∈ emitted d name -> sample_name x = name.
Proof.
  unfold emitted. case_bool_decide as Hn.
  - intros ->%list_elem_of_singleton. by subst.
  - intros (i & l & -> & _)%elem_of_lookup_imap. done.
Qed.

Lemma emitted_light (d : Data) (name : string) (x : sample) :
  name <> klInfo -> x ∈ emitted d name ->
  exists i l, Lights d !! i = Some l
    /\ x = mkSample name (light_value name l)
             ["light" +:+ itoa i; SerialNumber (Device_of d)].
Proof.
  unfold emitted. intros Hn. rewrite bool_decide_eq_false_2 by done.
  intros (i & l & -> & Hl)%elem_of_lookup_imap. eauto.
Qed.

Lemma sent_emitted (d : Data) (order : list (string * collector)) (x : sample) :
  iteration_order NewHandler_mm order ->
  x ∈ (scrapeDevice quote d order []).2 ->
  sample_name x ∈ declared /\ x ∈ emitted d (sample_name x).
Proof.
  intros (names & Hn & ->)%(scrapeDevice_order_sent d) Hx. simpl in Hx.
  apply list_elem_of_bind in Hx as (name & Hx & Hname).
  rewrite (emitted_name _ _ _ Hx). by rewrite <- Hn.
Qed.

Lemma consts_declared (name : string) :
  name ∈ declared ->
  consts NewHandler_mm !! name
  = Some (if bool_decide (name = klInfo)
          then ("Metadata about an Elgato Key Light device.",
                ["firmware"; "name"; "serial"])
          else if bool_decide (name = klLightOn)
          then ("Reports whether a given light on a device is turned on (0: off, 1: on).",
                ["light"; "serial"])
          else if bool_decide (name = klLightBrightnessPercent)
          then ("The brightness percentage of a given light on a device.",
                ["light"; "serial"])
          else ("The color temperature in Kelvin of a given light on a device.",
                ["light"; "serial"])).
Proof.
  unfold declared. intros H. set_unfold in H.
  destruct H as [-> | [-> | [-> | [-> | []]]]]; name_cases; reflexivity.
Qed.

(** X9: every sample of a pass has as many label values as [NewHandler]
    has registered label names for the gauge of its name. *)
Theorem scrapeDevice_label_arity (d : Data) (order : list (string * collector)) :
  iteration_order NewHandler_mm order ->
  Forall (fun x => exists help labelNames,
            consts NewHandler_mm !! sample_name x = Some (help, labelNames)
            /\ length (sample_labels x) = length labelNames)
         (scrapeDevice quote d order []).2.
Proof.
  intros Ho. apply Forall_forall. intros x Hx.
  destruct (sent_emitted d order x Ho Hx) as [Hd He].
  rewrite (consts_declared _ Hd).
  destruct (decide (sample_name x = klInfo)) as [Hi | Hi].
  - rewrite bool_decide_eq_true_2 by done. eexists _, _. split; [done |].
    rewrite Hi in He. unfold emitted in He. name_cases.
    apply list_elem_of_singleton in He. by subst.
  - rewrite (bool_decide_eq_false_2 _ Hi).
    apply emitted_light in He as (i & l & _ & ->); [| done].
    repeat case_bool_decide; eexists _, _; (split; [done |]); done.
Qed.

Lemma itoa_inj (i j : nat) : itoa i = itoa j -> i = j.
Proof.
  unfold itoa. intros H.
  apply (f_equal NilEmpty.uint_of_string) in H.
  rewrite !NilEmpty.usu in H.
  apply DecimalNat.Unsigned.to_uint_inj. congruence.
Qed.

(** X10: no two samples of a pass have the same name and the same label
    values: the gauge of the device has one sample, and the samples of a
    gauge of the lights differ in the label of the light. *)
Theorem scrapeDevice_no_duplicates (d : Data) (order : list (string * collector)) :
  iteration_order NewHandler_mm order ->
  NoDup (sample_key <$> (scrapeDevice quote d order []).2).
Proof.
  intros (names & Hn & ->)%(scrapeDevice_order_sent d). simpl.
  assert (NoDup names) as Hnd by (rewrite Hn; unfold declared; compute_done).
  clear Hn. induction names as [| name names IH]; [constructor |]. apply NoDup_cons in Hnd as [Hnotin Hnd]. specialize (IH Hnd).
  change ((name :: names) ≫= emitted d) with (emitted d name ++ (names ≫= emitted d)).
  rewrite fmap_app. apply NoDup_app. split; [| split; [| exact IH]].
  - unfold emitted. case_bool_decide.
    + apply NoDup_singleton.
    + rewrite fmap_imap. apply NoDup_alt. intros i j k Hi Hj.
      apply list_lookup_imap_Some in Hi as (l1 & _ & ->).
      apply list_lookup_imap_Some in Hj as (l2 & _ & Heq).
      unfold sample_key, compose in Heq. simpl in Heq. injection Heq as Heq.
      by apply itoa_inj in Heq.
  - intros k (x & -> & Hx)%list_elem_of_fmap (y & Hk & Hy)%list_elem_of_fmap.
    apply list_elem_of_bind in Hy as (name' & Hy & Hname').
    apply emitted_name in Hx, Hy. unfold sample_key in Hk.
    injection Hk as Hk _. apply Hnotin. by rewrite <- Hx, Hk, Hy.
Qed.
End ScrapeMore.

Lemma scrapeDevice_order_independent_witness :
  (scrapeDevice quote_plain test_Data test_order []).2
  ≡ₚ (scrapeDevice quote_plain test_Data reverse_order []).2.
Proof.
  apply (scrapeDevice_order_independent quote_plain test_Data test_order reverse_order).
  - unfold iteration_order, test_order. reflexivity.
  - unfold iteration_order, reverse_order, test_order. apply reverse_Permutation.
Defined.

Lemma scrapeDevice_label_arity_witness :
  Forall (fun x => exists help labelNames,
            consts NewHandler_mm !! sample_name x = Some (help, labelNames)
            /\ length (sample_labels x) = length labelNames)
         (scrapeDevice quote_plain test_Data test_order []).2.
Proof.
  apply (scrapeDevice_label_arity quote_plain test_Data test_order).
  unfold iteration_order, test_order. reflexivity.
Defined.

Lemma scrapeDevice_no_duplicates_witness :
  NoDup (sample_key <$> (scrapeDevice quote_plain test_Data test_order []).2).
Proof.
  apply (scrapeDevice_no_duplicates quote_plain test_Data test_order).
  unfold iteration_order, test_order. reflexivity.
Defined.

(** * More of the requests served at the same time *)

Section ServerMore.
Variable quote : string -> string.
Variable encode : list sample -> string.

Local Abbreviation stage := (stage quote encode).
Local Abbreviation server_inv := (server_inv quote encode).
Local Abbreviation step := (step encode (ServeHTTP quote)).

Lemma step_held (s s' : server) :
  server_inv s -> held s -> step s s' -> held s'.
Proof.
  intros [Hc Hst Hex] Hheld Hstep.
  destruct Hstep as [h gs t r Ht | h gs t od addr k res Ht | h gs t od k Ht Hfree
                    | h gs t od scrape k Ht | h gs t od k order Ht Ho
                    | h gs t od k Ht]; unfold held in *; cbn [shared pool mu] in *;
    try (pose proof (stage_code _ _ _ _ _ (Hst _ _ Ht)) as Hg; simpl in Hg).
  - intros (t' & g & Hg & Hh)%Hheld. exists t', g. split; [|done].
    rewrite lookup_insert_ne; [done | congruence].
  - intros (t' & g & Hg' & Hh)%Hheld. exists t', g. split; [|done].
    rewrite lookup_insert_ne; [done |]. intros <-. rewrite Ht in Hg'.
    by injection Hg' as <-.
  - intros _. destruct Hg as (d & -> & ->).
    eexists t, _. rewrite lookup_insert_eq. split; [done |]. exact I.
  - intros _. destruct Hg as (d & -> & _ & [= -> ->]).
    eexists t, _. rewrite lookup_insert_eq. split; [done |]. exact I.
  - intros _. destruct Hg as (d & -> & _ & _ & ->).
    eexists t, _. rewrite lookup_insert_eq. split; [done |]. exact I.
  - done.
Qed.

Lemma reachable_held (s : server) : reachable quote encode s -> held s.
Proof.
  unfold reachable. intros H.
  enough (server_inv s /\ held s) by tauto.
  eapply (rtc_ind_r (fun s => server_inv s /\ held s)); [| | exact H].
  - split; [apply server_init_inv | by intros ?].
  - intros s1 s2 _ Hstep [Hinv Hh]. split; [by eapply step_inv | by eapply step_held].
Qed.

(** X11: the mutex is locked exactly while one of the requests being served is
    between its [Lock] and its [Unlock]; that request has its snapshot. *)
Theorem mutex_locked_iff_held (s : server) :
  reachable quote encode s ->
  mu (shared s) = true
  <-> exists t g d, pool s !! t = Some g /\ holds g /\ local_d g = Some d.
Proof.
  intros Hr. pose proof (reachable_inv _ _ _ Hr) as [Hc Hst Hex]. split.
  - intros (t & g & Hg & Hh)%(reachable_held _ Hr).
    destruct g as [od p]. pose proof (stage_code _ _ _ _ _ (Hst _ _ Hg)) as Hp.
    unfold holds in Hh. simpl in Hh.
    destruct p; try done; simpl in Hp.
    + destruct Hp as (d & -> & _). by eexists t, _, d.
    + destruct Hp as (d & -> & _). by eexists t, _, d.
    + destruct Hp as (d & resp & -> & _). by eexists t, _, d.
  - intros (t & g & d & Hg & Hh & _). eapply stage_holds_mu; eauto.
Qed.

(** X12: as long as a request being served has not returned, one of the requests
    being served can perform its next action: a request that waits in
    [Lock] waits for one that is before its [Unlock] and can go on. *)
Theorem server_progress (s : server) (t : nat) (g : goroutine) :
  reachable quote encode s ->
  pool s !! t = Some g -> (forall resp, code g <> Ret resp) ->
  exists s' t' g1 g2,
    step s s' /\ pool s !! t' = Some g1 /\ pool s' !! t' = Some g2
    /\ code g1 <> code g2.
Proof.
  intros Hr Hg Hrun.
  pose proof (reachable_inv _ _ _ Hr) as [Hc Hst Hex].
  assert (forall t g, pool s !! t = Some g -> holds g ->
            exists s' g2, step s s' /\ pool s' !! t = Some g2 /\ code g <> code g2)
    as Hholder.
  { clear t g Hg Hrun. intros t [od p] Hg Hh.
    pose proof (stage_code _ _ _ _ _ (Hst _ _ Hg)) as Hp.
    destruct s as [h gs]. cbn [shared pool] in *.
    unfold holds in Hh. simpl in Hh. destruct p; try done; simpl in Hp.
    - destruct Hp as (d & -> & _ & [= -> ->]).
      eexists _, _. split; [eapply step_set_scrape; exact Hg |].
      cbn [pool]. rewrite lookup_insert_eq. split; [done | discriminate].
    - destruct Hp as (d & -> & _ & _ & ->).
      eexists _, _. split; [eapply step_serve_metrics; [exact Hg | unfold iteration_order; reflexivity] |].
      cbn [pool]. rewrite lookup_insert_eq. split; [done | discriminate].
    - destruct Hp as (d & resp & -> & _ & _ & ->).
      eexists _, _. split; [eapply step_unlock; exact Hg |].
      cbn [pool]. rewrite lookup_insert_eq. split; [done | discriminate]. }
  destruct g as [od p].
  pose proof (stage_code _ _ _ _ _ (Hst _ _ Hg)) as Hp.
  destruct p as [resp | addr k | k | scrape k | k | k]; simpl in Hp.
  - by destruct (Hrun resp).
  - destruct Hp as [-> ->]. destruct s as [h gs]. cbn [shared pool] in *.
    eexists _, t, _, _. split; [eapply (step_fetch _ _ _ _ _ _ _ _ (Err (errorString ""))); exact Hg |].
    cbn [pool]. rewrite lookup_insert_eq. split; [done |]. split; [done | discriminate].
  - destruct Hp as (d & -> & ->).
    destruct (mu (shared s)) eqn:Hmu.
    + apply (reachable_held _ Hr) in Hmu as (t' & g' & Hg' & Hh').
      destruct (Hholder _ _ Hg' Hh') as (s' & g2 & Hs & Hg2 & Hne).
      by exists s', t', g', g2.
    + destruct s as [h gs]. cbn [shared pool] in *.
      eexists _, t, _, _. split; [eapply step_lock; [exact Hg | exact Hmu] |].
      cbn [pool]. rewrite lookup_insert_eq. split; [done |]. split; [done | discriminate].
  - destruct (Hholder _ _ Hg I) as (s' & g2 & Hs & Hg2 & Hne).
    by eexists s', t, _, g2.
  - destruct (Hholder _ _ Hg I) as (s' & g2 & Hs & Hg2 & Hne).
    by eexists s', t, _, g2.
  - destruct (Hholder _ _ Hg I) as (s' & g2 & Hs & Hg2 & Hne).
    by eexists s', t, _, g2.
Qed.

End ServerMore.

Lemma waiting_server_reachable : reachable quote_plain test_encode waiting_server.
Proof.
  unfold reachable, waiting_server, server_init.
  eapply rtc_l; [apply (step_accept _ _ _ _ 0%nat test_Request); reflexivity |].
  eapply rtc_l; [apply (step_accept _ _ _ _ 1%nat other_Request); reflexivity |].
  eapply rtc_l.
  { apply (step_fetch _ _ _ _ 0%nat None "http://foo:9123"
             (after_fetch quote_plain "http://foo:9123") (Ok test_Data)).
    reflexivity. }
  eapply rtc_l.
  { apply (step_fetch _ _ _ _ 1%nat None "http://bar:9123"
             (after_fetch quote_plain "http://bar:9123") (Ok other_Data)).
    reflexivity. }
  eapply rtc_l.
  { apply (step_lock _ _ _ _ 0%nat (Some test_Data) (critical quote_plain test_Data));
      reflexivity. }
  apply rtc_refl.
Defined.

Lemma mutex_locked_iff_held_witness :
  mu (shared waiting_server) = true
  <-> exists t g d, pool waiting_server !! t = Some g /\ holds g /\ local_d g = Some d.
Proof.
  apply (mutex_locked_iff_held quote_plain test_encode waiting_server).
  exact waiting_server_reachable.
Defined.

Lemma server_progress_witness :
  exists s' t' g1 g2,
    step test_encode (ServeHTTP quote_plain) waiting_server s'
    /\ pool waiting_server !! t' = Some g1 /\ pool s' !! t' = Some g2
    /\ code g1 <> code g2.
Proof.
  apply (server_progress quote_plain test_encode waiting_server 1%nat
           (mkGoroutine (Some other_Data) (Lock (critical quote_plain other_Data)))).
  - exact waiting_server_reachable.
  - reflexivity.
  - discriminate.
Defined.

(** * More of the request handler *)

Section OrchestratorMore.
Variable quote : string -> string.
Variable encode : list sample -> string.


Section DefaultFetcher.
Variable Client : Type.
Variable keylight_NewClient : string -> result Client.
Variable Client_AccessoryInfo : Client -> result Device.
Variable Client_Lights : Client -> result (list Light).

Local Abbreviation Fetch :=
  (NewHandler_f quote Client keylight_NewClient Client_AccessoryInfo Client_Lights None).

(** X14: with the default fetcher, which [NewHandler] takes for a nil
    fetcher, a failure of the first of the three calls of the client that
    fails ends the request with status 500; the body names the endpoint,
    the call that failed and its error. *)
Theorem ServeHTTP_default_fetcher_fails (order : list (string * collector))
    (r : Request) (h : handler) (addr : string) (err : error) :
  Values_Get (Query r) "target" <> "" ->
  buildAddr (Values_Get (Query r) "target") = Ok addr ->
  Fetch addr = Err err ->
  exists what cause,
    ((what = "create client" /\ keylight_NewClient addr = Err cause)
     \/ (what = "fetch device"
         /\ exists c, keylight_NewClient addr = Ok c
              /\ Client_AccessoryInfo c = Err cause)
     \/ (what = "fetch lights"
         /\ exists c d, keylight_NewClient addr = Ok c
              /\ Client_AccessoryInfo c = Ok d /\ Client_Lights c = Err cause))
    /\ let resp := Respond 500 ("failed to fetch Key Light data from "
                                  +:+ quote addr +:+ ": failed to " +:+ what
                                  +:+ ": " +:+ Error quote cause +:+ newline) in
       run encode Fetch order (ServeHTTP quote r) h
       = Some ([EvFetchCall addr; EvFetchReturn (Err err); EvReturn resp], resp, h).
Proof.
  intros Ht Hb Hf.
  assert (run encode Fetch order (ServeHTTP quote r) h
          = let resp := Respond 500 ("failed to fetch Key Light data from "
                                       +:+ quote addr +:+ ": " +:+ Error quote err
                                       +:+ newline) in
            Some ([EvFetchCall addr; EvFetchReturn (Err err); EvReturn resp], resp, h))
    as Hrun.
  { unfold ServeHTTP. cbv zeta.
    destruct (String.eqb_spec (Values_Get (Query r) "target") "") as [|_]; [done |].
    rewrite Hb. cbn [run]. rewrite Hf. cbn [run mbind option_bind]. unfold http_Error, StatusInternalServerError.
    by rewrite !append_assoc. }
  rewrite Hrun. clear Hrun. unfold NewHandler_f, httpFetcher_Fetch, Errorf_v in Hf.
  destruct (keylight_NewClient addr) as [c|e1] eqn:H1.
  - destruct (Client_AccessoryInfo c) as [d|e2] eqn:H2.
    + destruct (Client_Lights c) as [ls|e3] eqn:H3; [done |].
      injection Hf as <-. exists "fetch lights", e3.
      split; [right; right; split; [done |]; by exists c, d | by simpl].
    + injection Hf as <-. exists "fetch device", e2.
      split; [right; left; split; [done |]; by exists c | by simpl].
  - injection Hf as <-. exists "create client", e1.
    split; [by left | by simpl].
Qed.
End DefaultFetcher.
End OrchestratorMore.


Lemma ServeHTTP_default_fetcher_fails_witness :
  exists what cause,
    ((what = "create client" /\ @Ok unit tt = Err cause)
     \/ (what = "fetch device"
         /\ exists c, @Ok unit tt = Ok c /\ failing_AccessoryInfo c = Err cause)
     \/ (what = "fetch lights"
         /\ exists c d, @Ok unit tt = Ok c
              /\ failing_AccessoryInfo c = Ok d /\ @Ok (list Light) [] = Err cause))
    /\ let resp := Respond 500 ("failed to fetch Key Light data from "
                                  +:+ quote_plain "http://foo:9123" +:+ ": failed to "
                                  +:+ what +:+ ": " +:+ Error quote_plain cause
                                  +:+ newline) in
       run test_encode
           (NewHandler_f quote_plain unit (fun _ => Ok tt) failing_AccessoryInfo
                         (fun _ => Ok []) None)
           test_order (ServeHTTP quote_plain test_Request) NewHandler
       = Some ([EvFetchCall "http://foo:9123";
                EvFetchReturn
                  (Err (errorString "failed to fetch device: context deadline exceeded"));
                EvReturn resp], resp, NewHandler).
Proof.
  apply (ServeHTTP_default_fetcher_fails quote_plain test_encode unit (fun _ => Ok tt)
           failing_AccessoryInfo (fun _ => Ok []) test_order test_Request NewHandler
           "http://foo:9123"
           (errorString "failed to fetch device: context deadline exceeded"));
    [discriminate | reflexivity | reflexivity].
Defined.
